(** * timoni: [mod import crd] -- the CRD extraction and generation pipeline

    A shallow embedding of [cmd/timoni/mod_import_crd.go] and the properties
    of it that the specification states.

    The command talks to the operating system (stat, open, read, mkdir,
    write), to the logger and to the Go runtime (the iteration order of a
    map).  These calls are the events of a small free monad; a handler
    answers them.  Theorems quantify over every handler, so they hold
    whatever the operating system answers.  The decoder, the YAML encoder
    and the CUE generator are deterministic library functions and are
    parameters of the development. *)

From Stdlib Require Import Strings.String Strings.Ascii Strings.Byte.
From Stdlib Require Import Sorting.Sorted.
From stdpp Require Import base option list gmap strings sorting fin_maps.

Local Open Scope string_scope.
Local Open Scope list_scope.

(** ** Go values *)

(** [[]byte] is a list of bytes; a Go [string] is a Rocq [string]. *)
Definition bytes := list byte.

(** ['\n'] *)
Definition LF : ascii := "010"%char.

(** Go errors.  [errorString] is what [errors.New] and [fmt.Errorf] without
    [%w] build, and stands for the errors of the libraries as well;
    [wrapError] is what [fmt.Errorf] builds for a format with [%w]: the
    formatted message together with the wrapped cause. *)
Inductive error : Type :=
| errorString (s : string)
| wrapError (msg : string) (err : error).

Definition Error (e : error) : string :=
  match e with
  | errorString s => s
  | wrapError msg _ => msg
  end.

Definition Unwrap (e : error) : option error :=
  match e with
  | errorString _ => None
  | wrapError _ err => Some err
  end.

(** A Go [(T, error)] pair of which the caller reads [T] only when the
    error is [nil]. *)
Inductive result (A : Type) : Type :=
| Ok (a : A)
| Err (e : error).
Arguments Ok {A} a.
Arguments Err {A} e.

(** ** [io/fs]: file modes *)

Definition FileMode := N.

Definition ModeDir        : FileMode := N.shiftl 1 31.
Definition ModeSymlink    : FileMode := N.shiftl 1 27.
Definition ModeDevice     : FileMode := N.shiftl 1 26.
Definition ModeNamedPipe  : FileMode := N.shiftl 1 25.
Definition ModeSocket     : FileMode := N.shiftl 1 24.
Definition ModeCharDevice : FileMode := N.shiftl 1 21.
Definition ModeIrregular  : FileMode := N.shiftl 1 19.

Definition ModeType : FileMode :=
  N.lor ModeDir (N.lor ModeSymlink (N.lor ModeNamedPipe (N.lor ModeSocket
    (N.lor ModeDevice (N.lor ModeCharDevice ModeIrregular))))).

(** [os.ModePerm] is [0777]. *)
Definition ModePerm : FileMode := 511%N.

Definition FileMode_IsDir (m : FileMode) : bool :=
  negb (N.eqb (N.land m ModeDir) 0%N).

Definition FileMode_IsRegular (m : FileMode) : bool :=
  N.eqb (N.land m ModeType) 0%N.

(** What [os.Stat] returns; the command reads the mode only. *)
Record FileInfo : Type := { Mode : FileMode }.

Definition IsDir (fi : FileInfo) : bool := FileMode_IsDir (Mode fi).

(** An open file, as [os.Open] returns it. *)
Record File : Type := { fd : nat; name : string }.

(** ** [path]: [Clean] and [Join] of the Go standard library *)

Module path.

Definition slash : ascii := "/"%char.
Definition dot : ascii := "."%char.

Definition is_slash (c : ascii) : bool := Ascii.eqb c slash.
Definition is_dot (c : ascii) : bool := Ascii.eqb c dot.

(** The inner loop of the [..] case:
    [for out.w > dotdot && out.index(out.w) != '/' { out.w-- }]. *)
Fixpoint scan_back (out : list ascii) (w dotdot : nat) : nat :=
  match w with
  | 0 => 0
  | S w' =>
      if (dotdot <? w)%nat && negb (is_slash (nth w out slash))
      then scan_back out w' dotdot
      else w
  end.

(** [out.w--] followed by the loop above; the buffer keeps its first [w]
    bytes. *)
Definition backtrack (out : list ascii) (dotdot : nat) : list ascii :=
  take (scan_back out (length out - 1) dotdot) out.

(** [for ; r < n && path[r] != '/'; r++ { out.append(path[r]) }]:
    the bytes of the element and the rest of the path. *)
Fixpoint element (p : list ascii) : list ascii * list ascii :=
  match p with
  | [] => ([], [])
  | c :: p' =>
      if is_slash c then ([], p)
      else let '(e, rest) := element p' in (c :: e, rest)
  end.

(** What one turn of [for r < n { switch ... }] sees at [path[r:]]. *)
Inductive head : Type :=
| EmptyElem          (* path[r] == '/' *)
| DotElem            (* "." *)
| DotDotElem         (* ".." *)
| RealElem.

Definition classify (p : list ascii) : head :=
  match p with
  | [] => EmptyElem
  | c :: p1 =>
      if is_slash c then EmptyElem
      else if is_dot c then
        match p1 with
        | [] => DotElem
        | c1 :: p2 =>
            if is_slash c1 then DotElem
            else if is_dot c1 then
              match p2 with
              | [] => DotDotElem
              | c2 :: _ => if is_slash c2 then DotDotElem else RealElem
              end
            else RealElem
        end
      else RealElem
  end.

(** The main loop of [Clean].  [p] is [path[r:]], [out] the live part of
    the buffer (so [out.w] is [length out]).  Every turn consumes at least
    one byte of [p], so [length p] turns are enough. *)
Fixpoint clean_loop (fuel : nat) (rooted : bool) (p out : list ascii)
    (dotdot : nat) : list ascii :=
  match fuel with
  | 0 => out
  | S fuel' =>
      match p with
      | [] => out
      | _ :: p1 =>
          match classify p with
          | EmptyElem => clean_loop fuel' rooted p1 out dotdot
          | DotElem => clean_loop fuel' rooted p1 out dotdot
          | DotDotElem =>
              let p2 := drop 2 p in
              if (dotdot <? length out)%nat then
                clean_loop fuel' rooted p2 (backtrack out dotdot) dotdot
              else if negb rooted then
                let out1 := if (0 <? length out)%nat then out ++ [slash] else out in
                let out2 := out1 ++ [dot; dot] in
                clean_loop fuel' rooted p2 out2 (length out2)
              else clean_loop fuel' rooted p2 out dotdot
          | RealElem =>
              let out1 :=
                if (rooted && negb (length out =? 1)%nat)
                   || (negb rooted && negb (length out =? 0)%nat)
                then out ++ [slash] else out in
              let '(e, rest) := element p in
              clean_loop fuel' rooted rest (out1 ++ e) dotdot
          end
      end
  end.

Definition Clean (path : string) : string :=
  match list_ascii_of_string path with
  | [] => "."
  | c :: p1 =>
      let p := c :: p1 in
      let rooted := is_slash c in
      let out :=
        if rooted
        then clean_loop (length p) true p1 [slash] 1
        else clean_loop (length p) false p [] 0 in
      match out with
      | [] => "."
      | _ => string_of_list_ascii out
      end
  end.

(** The loop of [Join] that glues the non-empty elements with ['/']. *)
Fixpoint join_loop (elem : list string) (buf : string) : string :=
  match elem with
  | [] => buf
  | e :: elem' =>
      if negb (String.length buf =? 0)%nat || negb (String.eqb e EmptyString)
      then
        let buf1 := if negb (String.length buf =? 0)%nat
                    then buf +:+ String slash EmptyString else buf in
        join_loop elem' (buf1 +:+ e)
      else join_loop elem' buf
  end.

Definition Join (elem : list string) : string :=
  let size := foldr (fun e n => String.length e + n)%nat 0%nat elem in
  if (size =? 0)%nat then EmptyString
  else Clean (join_loop elem EmptyString).

End path.

(** ** The calls the command makes to its environment *)

(** One constructor per call; the index is the type of the answer. *)
Inductive Event : Type -> Type :=
| os_Stat (name : string) : Event (result FileInfo)
| os_Open (name : string) : Event (result File)
| io_ReadAll (f : File) : Event (result bytes)
| os_MkdirAll (path : string) (perm : FileMode) : Event (option error)
| os_WriteFile (name : string) (data : bytes) (perm : FileMode) : Event (option error)
| log_Info (msg : string) : Event unit
(** [for k := range m]: the keys of [m] in the order the runtime picks. *)
| range_keys (m : gmap string bytes) : Event (list string).

(** A computation that makes such calls and returns an [A]. *)
Inductive Prog (A : Type) : Type :=
| Ret (a : A)
| Vis {X : Type} (e : Event X) (k : X -> Prog A).
Arguments Ret {A} a.
Arguments Vis {A X} e k.

Fixpoint bind {A B : Type} (p : Prog A) (f : A -> Prog B) : Prog B :=
  match p with
  | Ret a => f a
  | Vis e k => Vis e (fun x => bind (k x) f)
  end.

Definition call {X : Type} (e : Event X) : Prog X := Vis e Ret.

#[global] Instance Prog_ret : MRet Prog := @Ret.
#[global] Instance Prog_bind : MBind Prog := fun A B f p => bind p f.

(** A call together with the answer it got. *)
Inductive Entry : Type :=
| entry {X : Type} (e : Event X) (r : X).

(** The environment: a state [W] and an answer to every call. *)
Definition Handler (W : Type) : Type := forall X : Type, Event X -> W -> X * W.

(** What a run leaves: the returned value, the final state of the
    environment and the calls made, oldest first. *)
Record Outcome (A W : Type) : Type :=
  { ret : A; world : W; trace : list Entry }.
Arguments ret {A W} o.
Arguments world {A W} o.
Arguments trace {A W} o.

Fixpoint interp {A W : Type} (h : Handler W) (p : Prog A) (w : W) : Outcome A W :=
  match p with
  | Ret a => {| ret := a; world := w; trace := [] |}
  | Vis e k =>
      let '(r, w1) := h _ e w in
      let o := interp h (k r) w1 in
      {| ret := ret o; world := world o; trace := entry e r :: trace o |}
  end.

(** [sort.Strings]: increasing order of Go's [<] on strings, which compares
    byte by byte.  The order is total, so the sorted slice does not depend on
    the algorithm. *)
Definition sort_Strings (keys : list string) : list string :=
  merge_sort String.le keys.

(** ** [cmd/timoni/mod_import_crd.go] *)

(** [package main] *)
Module main.

Record importCrdFlags : Type := { modRoot : string; crdFile : string }.

(** [var importCrdArgs importCrdFlags]: the zero value. *)
Definition importCrdArgs : importCrdFlags :=
  {| modRoot := EmptyString; crdFile := EmptyString |}.

(** [init]: the only flag, [--file]/[-f], is bound to [crdFile] with the
    empty string as default; [file] is what the command line gives for it,
    if anything.  No flag is bound to [modRoot]. *)
Definition init (file : option string) (a : importCrdFlags) : importCrdFlags :=
  {| modRoot := modRoot a; crdFile := default EmptyString file |}.

(** [const header] *)
Definition header : string :=
  "// Code generated by timoni. DO NOT EDIT."
  +:+ String LF (String LF "//timoni:generate timoni import crd -f ").

(** The invocation the [Example] of [importCrdCmd] shows. *)
Definition example_invocation : string := "timoni mod import crd -f crds.yaml".

(** [importCrdCmd.Example] *)
Definition importCrdCmd_Example : string :=
  "  # generate CUE definitions from a local YAML file"
  +:+ String LF ("  " +:+ example_invocation +:+ String LF EmptyString).

(** [---\n] *)
Definition separator : string := "---" +:+ String LF EmptyString.

Section Command.

(** [*unstructured.Unstructured] and its [GetKind]. *)
Variable Object : Type.
Variable GetKind : Object -> string.
(** [ssa.ReadObjects(bytes.NewReader(data))] *)
Variable ssa_ReadObjects : bytes -> result (list Object).
(** [yaml.Marshal(object)] *)
Variable yaml_Marshal : Object -> result bytes.
(** [engine.NewImporter(cuectx, header).Generate(data)] *)
Variable Importer_Generate : string -> bytes -> result (gmap string bytes).
(** [colorizeSubject], of the logger. *)
Variable colorizeSubject : string -> string.

(** Lines 99-108: the loop over the decoded objects; [builder] is the
    content of the [strings.Builder]. *)
Fixpoint extractCRDs (objects : list Object) (builder : bytes) : result bytes :=
  match objects with
  | [] => Ok builder
  | object :: objects' =>
      if String.eqb (GetKind object) "CustomResourceDefinition" then
        let builder1 := builder ++ list_byte_of_string separator in
        match yaml_Marshal object with
        | Err err =>
            Err (wrapError ("marshaling CRD failed: " +:+ Error err) err)
        | Ok data => extractCRDs objects' (builder1 ++ data)
        end
      else extractCRDs objects' builder
  end.

(** Lines 125-136: the loop over the sorted keys. *)
Fixpoint writeKeys (cueModDir : string) (crds : gmap string bytes)
    (keys : list string) : Prog (option error) :=
  match keys with
  | [] => mret None
  | k :: keys' =>
      _ ← call (log_Info ("generating: " +:+ colorizeSubject k));
      let dstDir := path.Join [cueModDir; "gen"; k] in
      err ← call (os_MkdirAll dstDir ModePerm);
      match err with
      | Some err => mret (Some err)
      | None =>
          err ← call (os_WriteFile (path.Join [dstDir; "types_gen.cue"])
                        (default [] (crds !! k)) 420%N);
          match err with
          | Some err => mret (Some err)
          | None => writeKeys cueModDir crds keys'
          end
      end
  end.

(** Lines 117-138: collect the keys, sort them, write. *)
Definition writeDefinitions (cueModDir : string) (crds : gmap string bytes)
    : Prog (option error) :=
  keys ← call (range_keys crds);
  let keys := sort_Strings keys in
  writeKeys cueModDir crds keys.

(** Lines 93-138: everything after the file is in memory. *)
Definition importCrds (cueModDir crdFile : string) (crdData : bytes)
    : Prog (option error) :=
  match ssa_ReadObjects crdData with
  | Err err => mret (Some (wrapError ("parsing CRDs failed: " +:+ Error err) err))
  | Ok objects =>
      match extractCRDs objects [] with
      | Err err => mret (Some err)
      | Ok builder =>
          let imp := Importer_Generate (header +:+ crdFile) in
          match imp (list_byte_of_string (string_of_list_byte builder)) with
          | Err err => mret (Some err)
          | Ok crds => writeDefinitions cueModDir crds
          end
      end
  end.

(** Lines 64-66: [if len(args) > 0 { importCrdArgs.modRoot = args[0] }];
    [flags] is the value of [importCrdArgs]. *)
Definition setModRoot (flags : importCrdFlags) (args : list string)
    : importCrdFlags :=
  match args with
  | arg0 :: _ => {| modRoot := arg0; crdFile := crdFile flags |}
  | [] => flags
  end.

(** Lines 71-91: make sure we are importing into a CUE module, then load
    the YAML file into memory.  An early [return err] is an [Err]. *)
Definition loadCrdData (cueModDir : string) (flags : importCrdFlags)
    : Prog (result bytes) :=
  fs ← call (os_Stat cueModDir);
  if match fs with Err _ => true | Ok fs => negb (IsDir fs) end then
    mret (Err (errorString
      ("cue.mod not found in the module path " +:+ modRoot flags)))
  else
  fs ← call (os_Stat (crdFile flags));
  if match fs with
     | Err _ => true
     | Ok fs => negb (FileMode_IsRegular (Mode fs))
     end then
    mret (Err (errorString ("path not found: " +:+ crdFile flags)))
  else
  f ← call (os_Open (crdFile flags));
  match f with
  | Err err => mret (Err err)
  | Ok f => call (io_ReadAll f)
  end.

(** [runImportCrdCmd]; [flags] is the value of [importCrdArgs] when the
    command starts. *)
Definition runImportCrdCmd (flags : importCrdFlags) (args : list string)
    : Prog (option error) :=
  let flags := setModRoot flags args in
  let cueModDir := path.Join [modRoot flags; "cue.mod"] in
  crdData ← loadCrdData cueModDir flags;
  match crdData with
  | Err err => mret (Some err)
  | Ok crdData => importCrds cueModDir (crdFile flags) crdData
  end.

(** One invocation of the command line [timoni mod import crd]. *)
Definition Execute (file : option string) (args : list string)
    : Prog (option error) :=
  runImportCrdCmd (init file importCrdArgs) args.

End Command.

End main.

Import main.

(** ** An environment to run the command in

    A file system kept in memory: a flat table from paths to nodes.  It
    answers [range_keys] with the keys in decreasing order. *)

Module memfs.

Inductive node : Type :=
| Dir
| Reg (data : bytes).

Abbreviation fs := (gmap string node).

(** The bytes of the regular file at [p], if there is one. *)
Definition contents (w : fs) (p : string) : option bytes :=
  match w !! p with
  | Some (Reg data) => Some data
  | _ => None
  end.

Definition ENOENT (op p : string) : error :=
  errorString (op +:+ " " +:+ p +:+ ": no such file or directory").
Definition EISDIR (op p : string) : error :=
  errorString (op +:+ " " +:+ p +:+ ": is a directory").
Definition ENOTDIR (op p : string) : error :=
  errorString (op +:+ " " +:+ p +:+ ": not a directory").

Definition handler : Handler fs :=
  fun X e =>
    match e in Event X return fs -> X * fs with
    | os_Stat p => fun w =>
        (match w !! p with
         | Some Dir => Ok {| Mode := N.lor ModeDir 493%N |}
         | Some (Reg _) => Ok {| Mode := 420%N |}
         | None => Err (ENOENT "stat" p)
         end, w)
    | os_Open p => fun w =>
        (match w !! p with
         | Some _ => Ok {| fd := 3; name := p |}
         | None => Err (ENOENT "open" p)
         end, w)
    | io_ReadAll f => fun w =>
        (match w !! name f with
         | Some (Reg data) => Ok data
         | Some Dir => Err (EISDIR "read" (name f))
         | None => Err (ENOENT "read" (name f))
         end, w)
    | os_MkdirAll p _ => fun w =>
        match w !! p with
        | Some (Reg _) => (Some (ENOTDIR "mkdir" p), w)
        | _ => (None, <[p := Dir]> w)
        end
    | os_WriteFile p data _ => fun w =>
        match w !! p with
        | Some Dir => (Some (EISDIR "open" p), w)
        | _ => (None, <[p := Reg data]> w)
        end
    | log_Info _ => fun w => (tt, w)
    | range_keys m => fun w => (reverse (sort_Strings (map_to_list m).*1), w)
    end.

End memfs.

(** Stand-ins for the libraries: an object is a kind and a body, the decoder
    splits the input at every [';'] and reads the kind up to the first [':'],
    the encoder gives the body back and fails on an empty body, the generator
    yields one definition per lower-case letter of its input, keyed by the
    letter and made of the header followed by the input, and fails when the
    input contains a ['!']. *)

Module stub.

Definition Object : Type := string * bytes.
Definition GetKind (o : Object) : string := o.1.

Fixpoint split_at (c : byte) (data : bytes) : bytes * option bytes :=
  match data with
  | [] => ([], None)
  | b :: data' =>
      if Byte.eqb b c then ([], Some data')
      else let '(l, r) := split_at c data' in (b :: l, r)
  end.

Fixpoint split_documents (fuel : nat) (data : bytes) : list bytes :=
  match fuel with
  | 0 => []
  | S fuel' =>
      match split_at ";"%byte data with
      | (d, None) => [d]
      | (d, Some rest) => d :: split_documents fuel' rest
      end
  end.

Definition object_of (d : bytes) : result Object :=
  match split_at ":"%byte d with
  | (k, Some body) => Ok (string_of_list_byte k, body)
  | (_, None) => Err (errorString "missing kind")
  end.

Fixpoint objects_of (ds : list bytes) : result (list Object) :=
  match ds with
  | [] => Ok []
  | d :: ds' =>
      match object_of d with
      | Err e => Err e
      | Ok o =>
          match objects_of ds' with
          | Err e => Err e
          | Ok os => Ok (o :: os)
          end
      end
  end.

Definition ssa_ReadObjects (data : bytes) : result (list Object) :=
  match data with
  | [] => Ok []
  | _ => objects_of (split_documents (S (length data)) data)
  end.

Definition yaml_Marshal (o : Object) : result bytes :=
  match o.2 with
  | [] => Err (errorString "empty body")
  | _ => Ok o.2
  end.

Definition is_letter (b : byte) : bool :=
  (97 <=? Byte.to_nat b)%nat && (Byte.to_nat b <=? 122)%nat.

Definition Importer_Generate (hdr : string) (data : bytes)
    : result (gmap string bytes) :=
  if existsb (Byte.eqb "!"%byte) data
  then Err (errorString "unsupported schema")
  else Ok (list_to_map
             (map (fun b => (string_of_list_byte [b], list_byte_of_string hdr ++ data))
                  (List.filter is_letter data))).

Definition colorizeSubject (s : string) : string := s.

Definition run (file : option string) (args : list string) (w : memfs.fs)
    : Outcome (option error) memfs.fs :=
  interp memfs.handler
    (Execute Object GetKind ssa_ReadObjects yaml_Marshal Importer_Generate
       colorizeSubject file args) w.

End stub.

(** ** Vocabulary of the properties *)

(** What the environment answers to a call in a state, and the state it
    moves to. *)
Definition answer {W X : Type} (h : Handler W) (e : Event X) (w : W) : X :=
  (h X e w).1.
Definition after {W X : Type} (h : Handler W) (e : Event X) (w : W) : W :=
  (h X e w).2.

(** A call without its answer. *)
Inductive Call : Type :=
| mkCall {X : Type} (e : Event X).

Definition call_of (en : Entry) : Call :=
  match en with entry e _ => mkCall e end.

(** The error a call was answered with, if it failed. *)
Definition entry_error (en : Entry) : option error :=
  match en with
  | entry e r =>
      match e in Event X return X -> option error with
      | os_Stat _ | os_Open _ | io_ReadAll _ =>
          fun r => match r with Err err => Some err | Ok _ => None end
      | os_MkdirAll _ _ | os_WriteFile _ _ _ => fun r => r
      | log_Info _ | range_keys _ => fun _ => None
      end r
  end.

Definition is_CRD {Object : Type} (GetKind : Object -> string) (o : Object) : Prop :=
  GetKind o = "CustomResourceDefinition".

#[global] Instance is_CRD_dec {Object : Type} (GetKind : Object -> string)
    (o : Object) : Decision (is_CRD GetKind o) :=
  String.eq_dec (GetKind o) "CustomResourceDefinition".

(** The separator line of a multi-document YAML text, as the specification
    spells it: three hyphens and a line feed. *)
Definition yaml_separator : bytes := [x2d; x2d; x2d; x0a].

(** The documents of the buffer: each encoding behind its separator line. *)
Definition documents (docs : list bytes) : bytes :=
  concat (map (fun d => yaml_separator ++ d) docs).

#[global] Instance byte_eq_dec : EqDecision byte := Byte.byte_eq_dec.

(** The lines of a text, without their line feeds; what follows the last
    line feed is a line if it is not empty. *)
Fixpoint lines_go (text cur : bytes) : list bytes :=
  match text with
  | [] => match cur with [] => [] | _ => [cur] end
  | b :: text' =>
      if Byte.eqb b x0a then cur :: lines_go text' []
      else lines_go text' (cur ++ [b])
  end.

Definition lines (text : bytes) : list bytes := lines_go text [].

Definition unlines (ls : list bytes) : bytes :=
  concat (map (fun l => l ++ [x0a]) ls).

(** A line that starts a document: three hyphens alone. *)
Definition separator_line : bytes := [x2d; x2d; x2d].

(** The documents of a list of lines: a separator line closes the document
    before it, if there is one, and opens the next. *)
Fixpoint split_lines (ls : list bytes) (cur : option (list bytes))
    : list (list bytes) :=
  match ls with
  | [] => option_list cur
  | l :: ls' =>
      if decide (l = separator_line)
      then option_list cur ++ split_lines ls' (Some [])
      else split_lines ls' (Some (default [] cur ++ [l]))
  end.

(** The documents a reader of multi-document YAML finds in a buffer, and
    how many there are. *)
Definition yaml_documents (buffer : bytes) : list bytes :=
  map unlines (split_lines (lines buffer) None).

Definition document_count (buffer : bytes) : nat :=
  length (yaml_documents buffer).

(** An encoding that is one document: whole lines, none of them a separator
    line. *)
Definition single_document (d : bytes) : Prop :=
  unlines (lines d) = d /\ separator_line ∉ lines d.

(** The successful write a trace entry records, if it is one. *)
Definition entry_write (en : Entry) : option (string * bytes) :=
  match en with
  | entry e r =>
      match e in Event X return X -> option (string * bytes) with
      | os_WriteFile p data _ =>
          fun r => match r with None => Some (p, data) | Some _ => None end
      | _ => fun _ => None
      end r
  end.

(** The files a run wrote, oldest first. *)
Definition writes (t : list Entry) : list (string * bytes) := omap entry_write t.

(** Lines 93-115 without the writer: the generation map of a source. *)
Definition generated {Object : Type} (GetKind : Object -> string)
    (ssa_ReadObjects : bytes -> result (list Object))
    (yaml_Marshal : Object -> result bytes)
    (Importer_Generate : string -> bytes -> result (gmap string bytes))
    (file : string) (data : bytes) : result (gmap string bytes) :=
  match ssa_ReadObjects data with
  | Err err => Err (wrapError ("parsing CRDs failed: " +:+ Error err) err)
  | Ok objects =>
      match extractCRDs Object GetKind yaml_Marshal objects [] with
      | Err err => Err err
      | Ok builder => Importer_Generate (header +:+ file) builder
      end
  end.

(** The directory and the file of a generation key. *)
Definition dstDir (cueModDir k : string) : string :=
  path.Join [cueModDir; "gen"; k].
Definition dstFile (cueModDir k : string) : string :=
  path.Join [dstDir cueModDir k; "types_gen.cue"].

(** An ordinary path element: not empty, without ['/'], and neither [.]
    nor [..]. *)
Definition plain_elem (e : string) : Prop :=
  e <> EmptyString /\ e <> "." /\ e <> ".."
  /\ Forall (fun c => path.is_slash c = false) (list_ascii_of_string e).

(** The same as a test. *)
Definition plain_elemb (e : string) : bool :=
  negb (String.eqb e EmptyString) && negb (String.eqb e ".")
  && negb (String.eqb e "..")
  && forallb (fun c => negb (path.is_slash c)) (list_ascii_of_string e).

(** Elements glued with ['/']. *)
Fixpoint render (es : list string) : list ascii :=
  match es with
  | [] => []
  | [e] => list_ascii_of_string e
  | e :: es' => list_ascii_of_string e ++ path.slash :: render es'
  end.

(** The path made of the elements [es], absolute when [rooted]. *)
Definition path_of (rooted : bool) (es : list string) : string :=
  string_of_list_ascii ((if rooted then [path.slash] else []) ++ render es).

(** The slash [Clean] puts before a real element. *)
Definition glue (rooted : bool) (out : list ascii) : list ascii :=
  if (rooted && negb (length out =? 1)%nat) || (negb rooted && negb (length out =? 0)%nat)
  then [path.slash] else [].

(** The three calls made for a key. *)
Definition key_calls (colorizeSubject : string -> string) (cueModDir : string)
    (crds : gmap string bytes) (k : string) : list Call :=
  [ mkCall (log_Info ("generating: " +:+ colorizeSubject k));
    mkCall (os_MkdirAll (dstDir cueModDir k) ModePerm);
    mkCall (os_WriteFile (dstFile cueModDir k) (default [] (crds !! k)) 420%N) ].

(** The same calls, each answered with success. *)
Definition key_entries (colorizeSubject : string -> string) (cueModDir : string)
    (crds : gmap string bytes) (k : string) : list Entry :=
  [ entry (log_Info ("generating: " +:+ colorizeSubject k)) tt;
    entry (os_MkdirAll (dstDir cueModDir k) ModePerm) None;
    entry (os_WriteFile (dstFile cueModDir k) (default [] (crds !! k)) 420%N) None ].

(** Strictly increasing in the byte-wise lexicographic order. *)
Definition strictly_ascending (keys : list string) : Prop :=
  StronglySorted (fun k1 k2 => String.ltb k1 k2 = true) keys.

(** The files a list of keys leaves, as a table from path to content: a key
    written later replaces an earlier one at the same path. *)
Fixpoint layout (cueModDir : string) (crds : gmap string bytes)
    (keys : list string) : gmap string bytes :=
  match keys with
  | [] => ∅
  | k :: keys' =>
      layout cueModDir crds keys' ∪ {[ dstFile cueModDir k := default [] (crds !! k) ]}
  end.

Definition outputLayout (cueModDir : string) (crds : gmap string bytes)
    : gmap string bytes :=
  layout cueModDir crds (sort_Strings (map_to_list crds).*1).

(** The writes of a run that succeeds, in the order they are made. *)
Definition planned_writes (cueModDir : string) (crds : gmap string bytes)
    : list (string * bytes) :=
  map (fun k => (dstFile cueModDir k, default [] (crds !! k)))
      (sort_Strings (map_to_list crds).*1).

(** The runtime ranges over the keys of a map, each once, in some order. *)
Definition ranges_over_keys {W : Type} (h : Handler W) : Prop :=
  forall (m : gmap string bytes) (w : W),
    answer h (range_keys m) w ≡ₚ (map_to_list m).*1.

(** [contents w p] observes the bytes of the regular file at [p] in the
    state [w].  A successful [os.WriteFile] makes its data the content of the
    file and leaves the other files alone; [os.MkdirAll] and the logger change
    no file. *)
Record file_store {W : Type} (h : Handler W)
    (contents : W -> string -> option bytes) : Prop :=
  { store_write : forall p data perm w,
      answer h (os_WriteFile p data perm) w = None ->
      contents (after h (os_WriteFile p data perm) w) p = Some data
      /\ forall q, q <> p ->
           contents (after h (os_WriteFile p data perm) w) q = contents w q;
    store_mkdir : forall p perm w q,
      answer h (os_MkdirAll p perm) w = None ->
      contents (after h (os_MkdirAll p perm) w) q = contents w q;
    store_log : forall msg w q,
      contents (after h (log_Info msg) w) q = contents w q }.

(** Sources and file systems to run the command on. *)

Module example.

Definition src (text : string) : bytes := list_byte_of_string text.

(** Two CRDs around a ConfigMap. *)
Definition crds_yaml : bytes :=
  src "CustomResourceDefinition:ba;ConfigMap:zz;CustomResourceDefinition:c".
(** No CRD. *)
Definition rbac_yaml : bytes := src "ConfigMap:zz;Secret:s".
(** The second CRD has nothing to encode. *)
Definition hollow_yaml : bytes :=
  src "CustomResourceDefinition:a;CustomResourceDefinition:;CustomResourceDefinition:b".
(** The second document has no kind. *)
Definition broken_yaml : bytes := src "CustomResourceDefinition:a;oops".
(** A schema the generator refuses. *)
Definition refused_yaml : bytes := src "CustomResourceDefinition:a!".

(** The module [m] and the source [crds.yaml]. *)
Definition module_with (source : bytes) : memfs.fs :=
  <["m/cue.mod" := memfs.Dir]> (<["crds.yaml" := memfs.Reg source]> ∅).
(** The same with the module in the working directory. *)
Definition cwd_module_with (source : bytes) : memfs.fs :=
  <["cue.mod" := memfs.Dir]> (<["crds.yaml" := memfs.Reg source]> ∅).
(** No module. *)
Definition no_module : memfs.fs := <["crds.yaml" := memfs.Reg crds_yaml]> ∅.
(** The source path is a directory. *)
Definition source_is_dir : memfs.fs :=
  <["m/cue.mod" := memfs.Dir]> (<["crds.yaml" := memfs.Dir]> ∅).
(** A regular file sits where the directory of key [b] should go. *)
Definition blocked : memfs.fs :=
  <["m/cue.mod/gen/b" := memfs.Reg []]> (module_with crds_yaml).

(** What an earlier run left at the path of key [a]. *)
Definition stale : memfs.fs :=
  <["m/cue.mod/gen/a/types_gen.cue" := memfs.Reg (src "stale")]>
    (module_with crds_yaml).

(** Decoded objects that are all CRDs, and their encodings. *)
Definition crd_objects : list stub.Object :=
  [("CustomResourceDefinition", src "ba"); ("CustomResourceDefinition", src "c")].
Definition crd_docs : list bytes := [src "ba"; src "c"].

(** A Deployment between two CRDs, each encoded as whole lines. *)
Definition text_lines (ls : list string) : bytes :=
  unlines (map list_byte_of_string ls).
Definition widgets : stub.Object :=
  ("CustomResourceDefinition", text_lines ["name: widgets"; "scope: Namespaced"]).
Definition api : stub.Object := ("Deployment", text_lines ["name: api"]).
Definition gadgets : stub.Object :=
  ("CustomResourceDefinition", text_lines ["name: gadgets"]).
Definition mixed_objects : list stub.Object := [widgets; api; gadgets].
Definition only_crds : list stub.Object := [widgets; gadgets].
Definition mixed_docs : list bytes := [widgets.2; gadgets.2].

(** A generation map. *)
Definition two_keys : gmap string bytes :=
  <["b" := src "2"]> (<["a" := src "1"]> ∅).

Definition flags : importCrdFlags := init (Some "crds.yaml") importCrdArgs.

Definition run (args : list string) (w : memfs.fs)
    : Outcome (option error) memfs.fs :=
  stub.run (Some "crds.yaml") args w.

Definition load (w : memfs.fs) : Outcome (result bytes) memfs.fs :=
  interp memfs.handler (loadCrdData "m/cue.mod" (setModRoot flags ["m"])) w.

Definition generated (data : bytes) : result (gmap string bytes) :=
  generated stub.GetKind stub.ssa_ReadObjects stub.yaml_Marshal
    stub.Importer_Generate "crds.yaml" data.

End example.

(** ** Vocabulary of the further properties *)

(** A call that only looks at the file system: stat, open, read. *)
Definition is_lookup (en : Entry) : bool :=
  match en with
  | entry e _ =>
      match e with
      | os_Stat _ | os_Open _ | io_ReadAll _ => true
      | _ => false
      end
  end.

(** A stat call. *)
Definition is_stat (en : Entry) : bool :=
  match en with
  | entry e _ => match e with os_Stat _ => true | _ => false end
  end.

(** The calls that do not write leave every file as it is. *)
Record read_only {W : Type} (h : Handler W)
    (contents : W -> string -> option bytes) : Prop :=
  { ro_stat : forall p w q,
      contents (after h (os_Stat p) w) q = contents w q;
    ro_open : forall p w q,
      contents (after h (os_Open p) w) q = contents w q;
    ro_read : forall f w q,
      contents (after h (io_ReadAll f) w) q = contents w q;
    ro_range : forall m w q,
      contents (after h (range_keys m) w) q = contents w q }.

(** The calls for a key at which the writer stops: the directory cannot be
    made, or it can and the file cannot be written. *)
Definition key_failure (colorizeSubject : string -> string) (cueModDir : string)
    (crds : gmap string bytes) (k : string) (err : error) (t : list Entry) : Prop :=
  t = [ entry (log_Info ("generating: " +:+ colorizeSubject k)) tt;
        entry (os_MkdirAll (dstDir cueModDir k) ModePerm) (Some err) ]
  \/ t = [ entry (log_Info ("generating: " +:+ colorizeSubject k)) tt;
           entry (os_MkdirAll (dstDir cueModDir k) ModePerm) None;
           entry (os_WriteFile (dstFile cueModDir k) (default [] (crds !! k)) 420%N)
             (Some err) ].

(** The file system in memory with a fault injected: [os.Open] is refused,
    or [io.ReadAll] breaks off. *)

Module faulty.

Inductive fault : Type :=
| OpenDenied
| ReadBroken.

Definition EACCES (op p : string) : error :=
  errorString (op +:+ " " +:+ p +:+ ": permission denied").
Definition EIO (op p : string) : error :=
  errorString (op +:+ " " +:+ p +:+ ": input/output error").

Definition handler (f : fault) : Handler memfs.fs :=
  fun X e =>
    match e in Event X return memfs.fs -> X * memfs.fs with
    | os_Open p => fun w =>
        match f with
        | OpenDenied => (Err (EACCES "open" p), w)
        | ReadBroken => memfs.handler _ (os_Open p) w
        end
    | io_ReadAll fl => fun w =>
        match f with
        | ReadBroken => (Err (EIO "read" (name fl)), w)
        | OpenDenied => memfs.handler _ (io_ReadAll fl) w
        end
    | e' => memfs.handler _ e'
    end.

Definition run (f : fault) (args : list string) (w : memfs.fs)
    : Outcome (option error) memfs.fs :=
  interp (handler f)
    (Execute stub.Object stub.GetKind stub.ssa_ReadObjects stub.yaml_Marshal
       stub.Importer_Generate stub.colorizeSubject (Some "crds.yaml") args) w.

End faulty.

(** * Properties *)

Example Clean_1 : path.Clean "a//b/./c/../d/" = "a/b/d".
Proof. reflexivity. Qed.
Example Clean_2 : path.Clean "../../a/.." = "../..".
Proof. reflexivity. Qed.
Example Clean_3 : path.Clean "/../a/b/../../.." = "/".
Proof. reflexivity. Qed.
Example Clean_4 : path.Clean "a/.." = ".".
Proof. reflexivity. Qed.
Example Clean_5 : path.Clean "abc/def/../../.." = "..".
Proof. reflexivity. Qed.
Example Clean_6 : path.Clean "/abc/def/../../../ghi/jkl/../../../mno" = "/mno".
Proof. reflexivity. Qed.
Example Join_1 : path.Join [EmptyString; "cue.mod"] = "cue.mod".
Proof. reflexivity. Qed.
Example Join_2 : path.Join ["a"; EmptyString; "../b/"; "c"] = "b/c".
Proof. reflexivity. Qed.


Example dstFile_1 :
  dstFile (path.Join ["./modules/redis/"; "cue.mod"]) "example.com/widget/v1"
  = "modules/redis/cue.mod/gen/example.com/widget/v1/types_gen.cue".
Proof. reflexivity. Qed.

(** The loop of [Clean] never runs out of turns: every turn consumes at
    least one byte of the path, so more turns than bytes change nothing. *)

Lemma element_length (p e rest : list ascii) :
  path.element p = (e, rest) -> length rest <= length p.
Proof.
  revert e rest. induction p as [| c p IH]; intros e rest; cbn.
  - intros [= <- <-]. done.
  - destruct (path.is_slash c).
    + intros [= <- <-]. done.
    + destruct (path.element p) as [e' rest'] eqn:E. intros [= <- <-].
      specialize (IH _ _ eq_refl). lia.
Qed.

Lemma classify_real (c : ascii) (p : list ascii) :
  path.classify (c :: p) = path.RealElem -> path.is_slash c = false.
Proof. cbn. by destruct (path.is_slash c). Qed.

Lemma clean_loop_fuel (fuel1 fuel2 : nat) (rooted : bool) (p out : list ascii)
    (dotdot : nat) :
  length p <= fuel1 -> length p <= fuel2 ->
  path.clean_loop fuel1 rooted p out dotdot
  = path.clean_loop fuel2 rooted p out dotdot.
Proof.
  revert fuel2 p out dotdot.
  induction fuel1 as [| fuel1 IH]; intros fuel2 p out dotdot H1 H2.
  - destruct p; [| cbn in H1; lia]. by destruct fuel2.
  - destruct p as [| c p1]; [by destruct fuel2 |].
    destruct fuel2 as [| fuel2]; [cbn in H2; lia |].
    cbn in H1, H2. cbn [path.clean_loop].
    destruct (path.classify (c :: p1)) eqn:Hc.
    + apply IH; lia.
    + apply IH; lia.
    + assert (Hd : length (drop 2 (c :: p1)) <= length p1).
      { rewrite length_drop. cbn. lia. }
      cbv zeta. repeat case_match; apply IH; lia.
    + apply classify_real in Hc.
      destruct (path.element (c :: p1)) as [e rest] eqn:He.
      cbn in He. rewrite Hc in He.
      destruct (path.element p1) as [e' rest'] eqn:He'. injection He as <- <-.
      apply element_length in He'. cbv zeta. apply IH; lia.
Qed.

(** Paths of ordinary elements are fixed points of [Clean]. *)

Lemma plain_elemb_correct (e : string) : plain_elemb e = true -> plain_elem e.
Proof.
  unfold plain_elemb, plain_elem. rewrite !andb_true_iff, !negb_true_iff.
  intros [[[H1 H2] H3] H4]. apply String.eqb_neq in H1, H2, H3.
  split; [done |]. split; [done |]. split; [done |].
  apply Forall_forall. intros c Hc. rewrite forallb_forall in H4.
  apply list_elem_of_In in Hc. apply negb_true_iff. auto.
Qed.

Lemma plain_elem_chars (e : string) :
  plain_elem e ->
  exists c l, list_ascii_of_string e = c :: l
    /\ path.is_slash c = false
    /\ Forall (fun c => path.is_slash c = false) l
    /\ (path.is_dot c = true -> l <> [] /\ l <> [path.dot]).
Proof.
  intros (Hne & Hd & Hdd & Hns).
  destruct e as [| c e]; [done |]. cbn in Hns.
  apply Forall_cons in Hns as [Hc Hl].
  exists c, (list_ascii_of_string e).
  split; [done |]. split; [done |]. split; [done |].
  intros Hdot. apply Ascii.eqb_eq in Hdot as ->. split.
  - intros Hnil. destruct e; [done | discriminate Hnil].
  - intros Hone. destruct e as [| c1 [| c2 e]]; try discriminate Hone.
    injection Hone as ->. done.
Qed.

Lemma classify_plain (e : string) (rest : list ascii) :
  plain_elem e ->
  (rest = [] \/ exists r, rest = path.slash :: r) ->
  path.classify (list_ascii_of_string e ++ rest) = path.RealElem.
Proof.
  intros He Hrest.
  destruct (plain_elem_chars e He) as (c & l & -> & Hc & Hl & Hdot).
  cbn. rewrite Hc. destruct (path.is_dot c) eqn:Hd; [| done].
  destruct (Hdot eq_refl) as [Hnil Hone].
  destruct l as [| c1 l]; [done |].
  apply Forall_cons in Hl as [Hc1 Hl]. cbn. rewrite Hc1.
  destruct (path.is_dot c1) eqn:Hd1; [| done].
  apply Ascii.eqb_eq in Hd1 as ->.
  destruct l as [| c2 l]; [done |].
  apply Forall_cons in Hl as [Hc2 _]. cbn. by rewrite Hc2.
Qed.

Lemma element_plain (l rest : list ascii) :
  Forall (fun c => path.is_slash c = false) l ->
  (rest = [] \/ exists r, rest = path.slash :: r) ->
  path.element (l ++ rest) = (l, rest).
Proof.
  intros Hl Hrest. induction Hl as [| c l Hc _ IH]; cbn.
  - destruct Hrest as [-> | [r ->]]; [done |]. cbn. done.
  - by rewrite Hc, IH.
Qed.

Lemma glue_spec (rooted : bool) (out : list ascii) :
  (if (rooted && negb (length out =? 1)%nat) || (negb rooted && negb (length out =? 0)%nat)
   then out ++ [path.slash] else out)
  = out ++ glue rooted out.
Proof. unfold glue. case_match; [done | by rewrite app_nil_r]. Qed.

Lemma glue_long (rooted : bool) (out : list ascii) :
  1 <= length out -> (rooted = true -> 2 <= length out) ->
  glue rooted out = [path.slash].
Proof.
  intros H1 H2. unfold glue. destruct rooted; cbn.
  - specialize (H2 eq_refl). by destruct (Nat.eqb_spec (length out) 1); [lia |].
  - by destruct (Nat.eqb_spec (length out) 0); [lia |].
Qed.

Lemma glue_after (rooted : bool) (out l : list ascii) (c : ascii) :
  glue rooted ((out ++ glue rooted out) ++ c :: l) = [path.slash].
Proof.
  apply glue_long; rewrite !length_app; cbn [length]; [lia |].
  intros ->. unfold glue. cbn.
  destruct (Nat.eqb_spec (length out) 1); cbn; lia.
Qed.

Lemma render_cons (e : string) (es : list string) :
  es <> [] ->
  render (e :: es) = list_ascii_of_string e ++ path.slash :: render es.
Proof. by destruct es. Qed.

Lemma clean_loop_plain (rooted : bool) (es : list string) :
  Forall plain_elem es -> es <> [] ->
  forall (fuel : nat) (out : list ascii) (dotdot : nat),
    length (render es) <= fuel ->
    path.clean_loop fuel rooted (render es) out dotdot
    = out ++ glue rooted out ++ render es.
Proof.
  induction 1 as [| e es He Hes IH]; [done |]. intros _ fuel out dotdot Hfuel.
  destruct (plain_elem_chars e He) as (c & l & Hcl & Hc & Hl & _).
  assert (Hel : Forall (fun c => path.is_slash c = false) (list_ascii_of_string e)).
  { rewrite Hcl. by constructor. }
  destruct es as [| e' es].
  - cbn [render] in *.
    pose proof (classify_plain e [] He (or_introl eq_refl)) as Hk.
    pose proof (element_plain _ [] Hel (or_introl eq_refl)) as Hx.
    rewrite app_nil_r in Hk, Hx. rewrite Hcl in *.
    destruct fuel as [| fuel]; [cbn in Hfuel; lia |].
    cbn [path.clean_loop]. rewrite Hk, Hx. cbv zeta.
    rewrite glue_spec. destruct fuel; cbn; by rewrite <- ?app_assoc.
  - rewrite render_cons in * by done.
    set (R := render (e' :: es)) in *.
    pose proof (classify_plain e (path.slash :: R) He (or_intror (ex_intro _ R eq_refl))) as Hk.
    pose proof (element_plain _ (path.slash :: R) Hel (or_intror (ex_intro _ R eq_refl))) as Hx.
    rewrite length_app in Hfuel. cbn [length] in Hfuel.
    rewrite Hcl in *. cbn [length] in Hfuel.
    destruct fuel as [| [| fuel]]; [lia | lia |].
    cbn [path.clean_loop app]. cbn [app] in Hk, Hx. rewrite Hk, Hx. cbv zeta.
    rewrite glue_spec.
    change (path.classify (path.slash :: R)) with path.EmptyElem. cbv iota.
    rewrite IH by (done || lia).
    assert (Hg : glue rooted ((out ++ glue rooted out) ++ c :: l) = [path.slash])
      by apply glue_after.
    rewrite Hg. by rewrite <- !app_assoc.
Qed.

Lemma render_head (es : list string) :
  Forall plain_elem es -> es <> [] ->
  exists c l, render es = c :: l /\ path.is_slash c = false.
Proof.
  intros Hes Hne. destruct Hes as [| e es He _]; [done |].
  destruct (plain_elem_chars e He) as (c & l & Hcl & Hc & _).
  destruct es; cbn [render]; rewrite Hcl; cbn; eauto.
Qed.

(** [Clean] leaves a path of ordinary elements as it is. *)
Lemma Clean_path_of (rooted : bool) (es : list string) :
  Forall plain_elem es -> es <> [] ->
  path.Clean (path_of rooted es) = path_of rooted es.
Proof.
  intros Hes Hne. unfold path.Clean, path_of.
  rewrite list_ascii_of_string_of_list_ascii.
  destruct (render_head es Hes Hne) as (c & l & Hr & Hc).
  destruct rooted; cbn [app].
  - change (path.is_slash path.slash) with true. cbv iota zeta.
    rewrite clean_loop_plain by (done || cbn; lia).
    cbn. by rewrite Hr.
  - rewrite Hr. rewrite Hc. cbv zeta iota. rewrite <- Hr.
    rewrite clean_loop_plain by (done || cbn; lia).
    cbn. by rewrite Hr.
Qed.

Lemma string_of_list_ascii_app (l1 l2 : list ascii) :
  string_of_list_ascii (l1 ++ l2)
  = string_of_list_ascii l1 +:+ string_of_list_ascii l2.
Proof. induction l1 as [| c l1 IH]; [done |]. cbn. by rewrite IH. Qed.

Lemma render_app (es1 es2 : list string) :
  es1 <> [] -> es2 <> [] ->
  render (es1 ++ es2) = render es1 ++ path.slash :: render es2.
Proof.
  intros H1 H2. induction es1 as [| e es1 IH]; [done |].
  destruct es1 as [| e' es1].
  - cbn [app]. by rewrite render_cons.
  - cbn [app] in *. rewrite (render_cons e (e' :: es1 ++ es2)) by done.
    rewrite IH by done. rewrite (render_cons e (e' :: es1)) by done.
    by rewrite <- app_assoc.
Qed.

Lemma path_of_nonempty (rooted : bool) (es : list string) :
  Forall plain_elem es -> es <> [] ->
  (String.length (path_of rooted es) =? 0)%nat = false.
Proof.
  intros Hes Hne. unfold path_of.
  destruct (render_head es Hes Hne) as (c & l & -> & _). by destruct rooted.
Qed.

Lemma append_assoc (s1 s2 s3 : string) :
  (s1 +:+ s2) +:+ s3 = s1 +:+ (s2 +:+ s3).
Proof.
  induction s1 as [| c s1 IH]; [done |].
  change (String c ((s1 +:+ s2) +:+ s3) = String c (s1 +:+ (s2 +:+ s3))).
  by f_equal.
Qed.

Lemma path_of_app (rooted : bool) (es1 es2 : list string) :
  es1 <> [] -> es2 <> [] ->
  path_of rooted (es1 ++ es2)
  = path_of rooted es1 +:+ String path.slash (path_of false es2).
Proof.
  intros H1 H2. unfold path_of. rewrite render_app by done.
  cbn [app]. by rewrite app_assoc, string_of_list_ascii_app.
Qed.

Lemma join_loop_start (e : string) (elem : list string) :
  (String.length e =? 0)%nat = false ->
  path.join_loop (e :: elem) EmptyString = path.join_loop elem e.
Proof. intros He. by destruct e. Qed.

Lemma join_loop_next (e buf : string) (elem : list string) :
  (String.length buf =? 0)%nat = false ->
  path.join_loop (e :: elem) buf
  = path.join_loop elem (buf +:+ String path.slash e).
Proof.
  intros Hbuf. cbn [path.join_loop]. rewrite Hbuf. cbn [negb orb].
  by rewrite append_assoc.
Qed.

Lemma Join_size (e : string) (elem : list string) :
  (String.length e =? 0)%nat = false ->
  path.Join (e :: elem) = path.Clean (path.join_loop (e :: elem) EmptyString).
Proof.
  intros He. unfold path.Join. cbn [foldr].
  destruct (Nat.eqb_spec (String.length e + foldr (fun e n => String.length e + n) 0 elem) 0) as [H0 | H0];
    [| done].
  apply Nat.eqb_neq in He. lia.
Qed.

(** Joining paths of ordinary elements concatenates their elements. *)
Lemma Join_path_of (rooted : bool) (es1 es2 : list string) :
  Forall plain_elem es1 -> Forall plain_elem es2 -> es1 <> [] -> es2 <> [] ->
  path.Join [path_of rooted es1; path_of false es2] = path_of rooted (es1 ++ es2).
Proof.
  intros H1 H2 Hn1 Hn2.
  pose proof (path_of_nonempty rooted es1 H1 Hn1) as L1.
  rewrite Join_size, join_loop_start, join_loop_next by done.
  cbn [path.join_loop]. rewrite <- path_of_app by done.
  apply Clean_path_of; [by apply Forall_app | by destruct es1].
Qed.

Lemma Join3_path_of (rooted : bool) (es1 es2 es3 : list string) :
  Forall plain_elem es1 -> Forall plain_elem es2 -> Forall plain_elem es3 ->
  es1 <> [] -> es2 <> [] -> es3 <> [] ->
  path.Join [path_of rooted es1; path_of false es2; path_of false es3]
  = path_of rooted (es1 ++ es2 ++ es3).
Proof.
  intros H1 H2 H3 Hn1 Hn2 Hn3.
  pose proof (path_of_nonempty rooted es1 H1 Hn1) as L1.
  assert (H12 : Forall plain_elem (es1 ++ es2)) by (apply Forall_app; split; assumption).
  assert (Hn12 : es1 ++ es2 <> []) by (destruct es1; [congruence | discriminate]).
  pose proof (path_of_nonempty rooted (es1 ++ es2) H12 Hn12) as L12.
  rewrite (Join_size _ _ L1).
  rewrite (join_loop_start _ _ L1).
  rewrite (join_loop_next _ _ _ L1).
  rewrite <- (path_of_app rooted es1 es2 Hn1 Hn2).
  rewrite (join_loop_next _ _ _ L12).
  cbn [path.join_loop].
  rewrite <- (path_of_app rooted (es1 ++ es2) es3 Hn12 Hn3).
  rewrite <- app_assoc.
  apply Clean_path_of.
  - apply Forall_app; split; [assumption |]. apply Forall_app; split; assumption.
  - destruct es1; [congruence | discriminate].
Qed.

Lemma plain_cue_mod : plain_elem "cue.mod".
Proof. by apply plain_elemb_correct. Qed.
Lemma plain_gen : plain_elem "gen".
Proof. by apply plain_elemb_correct. Qed.
Lemma plain_types_gen_cue : plain_elem "types_gen.cue".
Proof. by apply plain_elemb_correct. Qed.

(** For a module root and a key made of ordinary elements, the directory of
    the key is [<root>/cue.mod/gen/<key>] and its file [types_gen.cue] in
    it, letter for letter. *)
Lemma dstFile_path_of (rooted : bool) (root key : list string) :
  Forall plain_elem root -> Forall plain_elem key -> root <> [] -> key <> [] ->
  let cueModDir := path.Join [path_of rooted root; "cue.mod"] in
  dstDir cueModDir (path_of false key)
  = path_of rooted (root ++ ["cue.mod"; "gen"] ++ key)
  /\ dstFile cueModDir (path_of false key)
     = path_of rooted (root ++ ["cue.mod"; "gen"] ++ key ++ ["types_gen.cue"]).
Proof.
  intros Hroot Hkey Hr Hk cueModDir.
  assert (Pc : Forall plain_elem ["cue.mod"])
    by (constructor; [apply plain_cue_mod | constructor]).
  assert (Pg : Forall plain_elem ["gen"])
    by (constructor; [apply plain_gen | constructor]).
  assert (Pt : Forall plain_elem ["types_gen.cue"])
    by (constructor; [apply plain_types_gen_cue | constructor]).
  assert (Hrc : Forall plain_elem (root ++ ["cue.mod"]))
    by (apply Forall_app; split; assumption).
  assert (Hnrc : root ++ ["cue.mod"] <> [])
    by (destruct root; [congruence | discriminate]).
  assert (Hdir : cueModDir = path_of rooted (root ++ ["cue.mod"])).
  { apply (Join_path_of rooted root ["cue.mod"] Hroot Pc Hr). discriminate. }
  assert (Hdst : dstDir cueModDir (path_of false key)
                 = path_of rooted (root ++ ["cue.mod"; "gen"] ++ key)).
  { unfold dstDir. rewrite Hdir.
    change "gen" with (path_of false ["gen"]).
    rewrite (Join3_path_of rooted (root ++ ["cue.mod"]) ["gen"] key Hrc Pg Hkey Hnrc);
      [| discriminate | assumption].
    rewrite <- app_assoc. reflexivity. }
  split; [exact Hdst |]. unfold dstFile. rewrite Hdst.
  change "types_gen.cue" with (path_of false ["types_gen.cue"]).
  rewrite (Join_path_of rooted (root ++ ["cue.mod"; "gen"] ++ key) ["types_gen.cue"]).
  - rewrite <- !app_assoc. reflexivity.
  - apply Forall_app; split; [assumption |].
    apply Forall_app; split; [| assumption].
    constructor; [apply plain_cue_mod | exact Pg].
  - exact Pt.
  - destruct root; [congruence | discriminate].
  - discriminate.
Qed.

Example dstFile_2 :
  path_of true (["srv"; "redis"] ++ ["cue.mod"; "gen"] ++ ["example.com"; "widget"; "v1"] ++ ["types_gen.cue"])
  = "/srv/redis/cue.mod/gen/example.com/widget/v1/types_gen.cue".
Proof. reflexivity. Qed.

Lemma interp_call {W X A : Type} (h : Handler W) (e : Event X)
    (k : X -> Prog A) (w : W) :
  interp h (call e ≫= k) w =
  {| ret := ret (interp h (k (answer h e w)) (after h e w));
     world := world (interp h (k (answer h e w)) (after h e w));
     trace := entry e (answer h e w)
                :: trace (interp h (k (answer h e w)) (after h e w)) |}.
Proof.
  unfold answer, after. cbn. destruct (h X e w) as [r w1]. reflexivity.
Qed.

Lemma interp_bind {W A B : Type} (h : Handler W) (p : Prog A)
    (f : A -> Prog B) (w : W) :
  interp h (p ≫= f) w =
  {| ret := ret (interp h (f (ret (interp h p w))) (world (interp h p w)));
     world := world (interp h (f (ret (interp h p w))) (world (interp h p w)));
     trace := trace (interp h p w)
                ++ trace (interp h (f (ret (interp h p w))) (world (interp h p w))) |}.
Proof.
  revert w. induction p as [a | X e k IH]; intros w.
  - cbn. destruct (interp h (f a) w); reflexivity.
  - change (Vis e k ≫= f) with (Vis e (fun x => k x ≫= f)).
    cbn. destruct (h X e w) as [r w1]. rewrite IH. reflexivity.
Qed.

Section Properties.

Variable Object : Type.
Variable GetKind : Object -> string.
Variable ssa_ReadObjects : bytes -> result (list Object).
Variable yaml_Marshal : Object -> result bytes.
Variable Importer_Generate : string -> bytes -> result (gmap string bytes).
Variable colorizeSubject : string -> string.

Variable W : Type.
Variable h : Handler W.

Local Abbreviation runImportCrdCmd :=
  (main.runImportCrdCmd Object GetKind ssa_ReadObjects yaml_Marshal
     Importer_Generate colorizeSubject).
Local Abbreviation Execute :=
  (main.Execute Object GetKind ssa_ReadObjects yaml_Marshal
     Importer_Generate colorizeSubject).
Local Abbreviation importCrds :=
  (main.importCrds Object GetKind ssa_ReadObjects yaml_Marshal
     Importer_Generate colorizeSubject).
Local Abbreviation extractCRDs := (main.extractCRDs Object GetKind yaml_Marshal).
Local Abbreviation writeDefinitions := (main.writeDefinitions colorizeSubject).
Local Abbreviation writeKeys := (main.writeKeys colorizeSubject).

(** *** The loader *)

Lemma loadCrdData_no_module (cueModDir : string) (flags : importCrdFlags) (w : W) :
  (forall fs, answer h (os_Stat cueModDir) w = Ok fs -> IsDir fs = false) ->
  interp h (loadCrdData cueModDir flags) w =
  {| ret := Err (errorString
                   ("cue.mod not found in the module path " +:+ modRoot flags));
     world := after h (os_Stat cueModDir) w;
     trace := [entry (os_Stat cueModDir) (answer h (os_Stat cueModDir) w)] |}.
Proof.
  intros Hdir. unfold loadCrdData. rewrite interp_call.
  destruct (answer h (os_Stat cueModDir) w) as [fs | e] eqn:E.
  - rewrite (Hdir fs eq_refl). reflexivity.
  - reflexivity.
Qed.

Lemma loadCrdData_not_regular (cueModDir : string) (flags : importCrdFlags)
    (w : W) (fs1 : FileInfo) :
  answer h (os_Stat cueModDir) w = Ok fs1 ->
  IsDir fs1 = true ->
  let w1 := after h (os_Stat cueModDir) w in
  (forall fs, answer h (os_Stat (crdFile flags)) w1 = Ok fs ->
              FileMode_IsRegular (Mode fs) = false) ->
  interp h (loadCrdData cueModDir flags) w =
  {| ret := Err (errorString ("path not found: " +:+ crdFile flags));
     world := after h (os_Stat (crdFile flags)) w1;
     trace := [entry (os_Stat cueModDir) (Ok fs1);
               entry (os_Stat (crdFile flags))
                 (answer h (os_Stat (crdFile flags)) w1)] |}.
Proof.
  intros E1 D1 w1 Hreg. unfold loadCrdData. rewrite interp_call, E1, D1.
  cbn [negb]. rewrite interp_call. fold w1.
  destruct (answer h (os_Stat (crdFile flags)) w1) as [fs | e] eqn:E2.
  - rewrite (Hreg fs eq_refl). reflexivity.
  - reflexivity.
Qed.

(** Every run starts with the stat of the module marker. *)
Lemma loadCrdData_first_call (cueModDir : string) (flags : importCrdFlags) (w : W) :
  exists t, trace (interp h (loadCrdData cueModDir flags) w)
            = entry (os_Stat cueModDir) (answer h (os_Stat cueModDir) w) :: t.
Proof. unfold loadCrdData. rewrite interp_call. cbn. eauto. Qed.

(** With the marker in place the next call is the stat of the source. *)
Lemma loadCrdData_second_call (cueModDir : string) (flags : importCrdFlags)
    (w : W) (fs1 : FileInfo) :
  answer h (os_Stat cueModDir) w = Ok fs1 ->
  IsDir fs1 = true ->
  let w1 := after h (os_Stat cueModDir) w in
  exists t, trace (interp h (loadCrdData cueModDir flags) w)
            = entry (os_Stat cueModDir) (Ok fs1)
                :: entry (os_Stat (crdFile flags))
                     (answer h (os_Stat (crdFile flags)) w1) :: t.
Proof.
  intros E1 D1 w1. unfold loadCrdData. rewrite interp_call, E1, D1.
  cbn [negb]. rewrite interp_call. cbn. eauto.
Qed.

(** The run is the loader followed, when it gives the bytes, by the rest. *)
Lemma runImportCrdCmd_load (flags : importCrdFlags) (args : list string) (w : W) :
  let flags' := setModRoot flags args in
  let cueModDir := path.Join [modRoot flags'; "cue.mod"] in
  let o1 := interp h (loadCrdData cueModDir flags') w in
  interp h (runImportCrdCmd flags args) w =
  match ret o1 with
  | Err err => {| ret := Some err; world := world o1; trace := trace o1 |}
  | Ok crdData =>
      let o2 := interp h (importCrds cueModDir (crdFile flags') crdData) (world o1) in
      {| ret := ret o2; world := world o2; trace := trace o1 ++ trace o2 |}
  end.
Proof.
  intros flags' cueModDir o1. unfold runImportCrdCmd.
  fold flags' cueModDir. rewrite interp_bind. fold o1.
  destruct (ret o1) as [crdData | err].
  - reflexivity.
  - cbn. rewrite app_nil_r. reflexivity.
Qed.

Lemma runImportCrdCmd_no_module (flags : importCrdFlags) (args : list string) (w : W) :
  let root := modRoot (setModRoot flags args) in
  let cueModDir := path.Join [root; "cue.mod"] in
  (forall fs, answer h (os_Stat cueModDir) w = Ok fs -> IsDir fs = false) ->
  let o := interp h (runImportCrdCmd flags args) w in
  ret o = Some (errorString ("cue.mod not found in the module path " +:+ root))
  /\ trace o = [entry (os_Stat cueModDir) (answer h (os_Stat cueModDir) w)].
Proof.
  intros root cueModDir Hdir o. subst o.
  rewrite runImportCrdCmd_load. fold root cueModDir.
  rewrite (loadCrdData_no_module _ _ _ Hdir). cbn. split; reflexivity.
Qed.

(** C5.  When the module root lacks the [cue.mod] marker directory (the
    stat of it fails, or answers something that is not a directory), the
    run fails with the module-not-found error, and that stat is the only
    call it has made: the source file is neither examined, opened nor
    read. *)
Theorem module_root_checked_before_source
    (flags : importCrdFlags) (args : list string) (w : W) :
  let root := modRoot (setModRoot flags args) in
  let cueModDir := path.Join [root; "cue.mod"] in
  (forall fs, answer h (os_Stat cueModDir) w = Ok fs -> IsDir fs = false) ->
  let o := interp h (runImportCrdCmd flags args) w in
  ret o = Some (errorString ("cue.mod not found in the module path " +:+ root))
  /\ trace o = [entry (os_Stat cueModDir) (answer h (os_Stat cueModDir) w)].
Proof. apply runImportCrdCmd_no_module. Qed.

(** C7.  When the source path is not a regular file (a directory, say),
    the loader fails with the not-found error after the two stats: the
    path is neither opened nor read. *)
Theorem source_not_regular_is_not_read
    (flags : importCrdFlags) (args : list string) (w : W) (fs1 : FileInfo) :
  let flags' := setModRoot flags args in
  let cueModDir := path.Join [modRoot flags'; "cue.mod"] in
  let w1 := after h (os_Stat cueModDir) w in
  answer h (os_Stat cueModDir) w = Ok fs1 ->
  IsDir fs1 = true ->
  (forall fs, answer h (os_Stat (crdFile flags')) w1 = Ok fs ->
              FileMode_IsRegular (Mode fs) = false) ->
  let o := interp h (runImportCrdCmd flags args) w in
  ret o = Some (errorString ("path not found: " +:+ crdFile flags'))
  /\ trace o = [entry (os_Stat cueModDir) (Ok fs1);
                entry (os_Stat (crdFile flags'))
                  (answer h (os_Stat (crdFile flags')) w1)].
Proof.
  intros flags' cueModDir w1 E1 D1 Hreg o. subst o.
  rewrite runImportCrdCmd_load. fold flags' cueModDir.
  rewrite (loadCrdData_not_regular _ _ _ _ E1 D1 Hreg). cbn.
  split; reflexivity.
Qed.

(** *** The filter *)

Lemma kind_test (o : Object) :
  String.eqb (GetKind o) "CustomResourceDefinition" = bool_decide (is_CRD GetKind o).
Proof.
  unfold is_CRD. destruct (String.eqb_spec (GetKind o) "CustomResourceDefinition").
  - rewrite bool_decide_eq_true_2; auto.
  - rewrite bool_decide_eq_false_2; auto.
Qed.

Lemma extractCRDs_documents (objects : list Object) (docs : list bytes)
    (builder : bytes) :
  Forall2 (fun o d => yaml_Marshal o = Ok d) (filter (is_CRD GetKind) objects) docs ->
  extractCRDs objects builder = Ok (builder ++ documents docs).
Proof.
  revert docs builder.
  induction objects as [| o objects IH]; intros docs builder Hdocs.
  - apply Forall2_nil_inv_l in Hdocs as ->. cbn. by rewrite app_nil_r.
  - cbn [main.extractCRDs]. rewrite kind_test.
    destruct (decide (is_CRD GetKind o)) as [Hk | Hk].
    + rewrite filter_cons_True in Hdocs by done.
      apply Forall2_cons_inv_l in Hdocs as (d & docs' & Hd & Hdocs' & ->).
      rewrite bool_decide_eq_true_2 by done. rewrite Hd.
      rewrite (IH docs') by done.
      change (list_byte_of_string separator) with yaml_separator.
      unfold documents. cbn [map concat].
      by rewrite <- !app_assoc.
    + rewrite filter_cons_False in Hdocs by done.
      rewrite bool_decide_eq_false_2 by done. by apply IH.
Qed.

Lemma filter_all {A : Type} (P : A -> Prop) `{forall x, Decision (P x)}
    (l : list A) :
  Forall P l -> filter P l = l.
Proof.
  induction 1 as [| x l Hx _ IH]; [done |].
  rewrite filter_cons_True by done. by rewrite IH.
Qed.

Lemma filter_none {A : Type} (P : A -> Prop) `{forall x, Decision (P x)}
    (l : list A) :
  Forall (fun x => ~ P x) l -> filter P l = [].
Proof.
  induction 1 as [| x l Hx _ IH]; [done |].
  by rewrite filter_cons_False.
Qed.

(** Reading a buffer of documents back. *)

Lemma lines_go_line (l rest cur : bytes) :
  Forall (fun b => b <> x0a) l ->
  lines_go (l ++ x0a :: rest) cur = (cur ++ l) :: lines_go rest [].
Proof.
  intros Hl. revert cur. induction Hl as [| b l Hb _ IH]; intros cur.
  - cbn. by rewrite app_nil_r.
  - cbn. destruct (Byte.eqb b x0a) eqn:E.
    + by apply Byte.byte_dec_bl in E.
    + rewrite IH. by rewrite <- app_assoc.
Qed.

Lemma lines_go_no_lf (text cur : bytes) :
  Forall (fun b => b <> x0a) cur ->
  Forall (Forall (fun b => b <> x0a)) (lines_go text cur).
Proof.
  revert cur. induction text as [| b text IH]; intros cur Hcur.
  - cbn. destruct cur; [constructor | constructor; [done | constructor]].
  - cbn. destruct (Byte.eqb b x0a) eqn:E.
    + constructor; [done |]. apply IH. constructor.
    + apply IH. apply Forall_app. split; [done |].
      constructor; [| constructor]. by apply Byte.eqb_false.
Qed.

Lemma lines_unlines_app (ls : list bytes) (rest : bytes) :
  Forall (Forall (fun b => b <> x0a)) ls ->
  lines (unlines ls ++ rest) = ls ++ lines rest.
Proof.
  unfold lines. induction 1 as [| l ls Hl _ IH]; [done |].
  unfold unlines. cbn [map concat]. fold (unlines ls).
  rewrite <- !app_assoc. cbn [app]. rewrite (lines_go_line _ _ _ Hl).
  cbn [app]. by rewrite IH.
Qed.

Lemma lines_documents (docs : list bytes) :
  Forall single_document docs ->
  lines (documents docs)
  = concat (map (fun d => separator_line :: lines d) docs).
Proof.
  induction 1 as [| d docs [Hd _] _ IH]; [done |].
  unfold documents. cbn [map concat]. fold (documents docs).
  assert (Hu : unlines (separator_line :: lines d) = yaml_separator ++ d).
  { unfold unlines. cbn [map concat]. fold (unlines (lines d)). by rewrite Hd. }
  rewrite <- Hu, lines_unlines_app, IH; [done |].
  constructor; [by repeat constructor |]. apply lines_go_no_lf. constructor.
Qed.

Lemma split_lines_plain (ls rest : list bytes) (cur : list bytes) :
  separator_line ∉ ls ->
  split_lines (ls ++ rest) (Some cur) = split_lines rest (Some (cur ++ ls)).
Proof.
  revert cur. induction ls as [| l ls IH]; intros cur Hls.
  - by rewrite app_nil_r.
  - apply not_elem_of_cons in Hls as [Hl Hls]. cbn [app split_lines].
    rewrite decide_False by done. cbn [default]. rewrite IH by done.
    by rewrite <- app_assoc.
Qed.

Lemma split_lines_documents (docs : list bytes) (cur : option (list bytes)) :
  Forall single_document docs ->
  split_lines (concat (map (fun d => separator_line :: lines d) docs)) cur
  = option_list cur ++ map lines docs.
Proof.
  intros Hdocs. revert cur.
  induction Hdocs as [| d docs [_ Hd] _ IH]; intros cur.
  - cbn. by rewrite app_nil_r.
  - cbn [map concat app split_lines]. rewrite decide_True by done.
    rewrite split_lines_plain by done. by rewrite IH.
Qed.

(** A buffer of single documents reads back as those documents, in order. *)
Lemma yaml_documents_documents (docs : list bytes) :
  Forall single_document docs -> yaml_documents (documents docs) = docs.
Proof.
  intros Hdocs. unfold yaml_documents.
  rewrite lines_documents, split_lines_documents by done.
  change (map unlines (map lines docs) = docs).
  induction Hdocs as [| d docs [Hd _] _ IH]; [done |].
  cbn [map]. by rewrite Hd, IH.
Qed.

(** C1.  The buffer the filter builds from a decoded sequence is the
    concatenation, in input order, of the YAML encodings of the objects of
    kind [CustomResourceDefinition], each behind the separator line: three
    hyphens and a line feed; the other objects add nothing.  When each
    encoding is one document, the buffer reads back as exactly these
    documents, as many as there are CRDs in the input; so when every object
    is a CRD the buffer holds as many documents as the input has objects,
    the i-th document encoding the i-th object. *)
Theorem crd_filter_buffer (objects : list Object) (docs : list bytes) :
  Forall2 (fun o d => yaml_Marshal o = Ok d) (filter (is_CRD GetKind) objects) docs ->
  exists buffer,
    extractCRDs objects [] = Ok buffer
    /\ buffer = concat (map (fun d => [x2d; x2d; x2d; x0a] ++ d) docs)
    /\ (Forall single_document docs ->
        yaml_documents buffer = docs
        /\ document_count buffer = length (filter (is_CRD GetKind) objects)
        /\ (Forall (is_CRD GetKind) objects ->
            document_count buffer = length objects
            /\ Forall2 (fun o d => yaml_Marshal o = Ok d)
                 objects (yaml_documents buffer))).
Proof.
  intros Hdocs. exists (documents docs).
  split; [by rewrite (extractCRDs_documents _ _ _ Hdocs) |].
  split; [done |]. intros Hsingle.
  pose proof (yaml_documents_documents docs Hsingle) as Hback.
  split; [done |]. unfold document_count. rewrite Hback.
  split; [symmetry; by eapply Forall2_length |].
  intros Hall. rewrite (filter_all _ _ Hall) in Hdocs.
  split; [symmetry; by eapply Forall2_length | done].
Qed.

(** What [importCrds] does once the objects are decoded and filtered: the
    buffer goes to the generator, under the header that ends with the path
    of the source. *)
Lemma importCrds_generate (cueModDir file : string) (data : bytes)
    (objects : list Object) (buffer : bytes) :
  ssa_ReadObjects data = Ok objects ->
  extractCRDs objects [] = Ok buffer ->
  importCrds cueModDir file data =
  match Importer_Generate (header +:+ file) buffer with
  | Err err => Ret (Some err)
  | Ok crds => writeDefinitions cueModDir crds
  end.
Proof.
  intros Hread Hfilter. unfold main.importCrds.
  rewrite Hread, Hfilter, list_byte_of_string_of_list_byte. reflexivity.
Qed.

(** C6.  When decoding succeeds and no object is a CRD, the filter gives
    the empty buffer and does not fail: what the run does next is decided
    by the generator, called on the empty buffer. *)
Theorem no_crd_empty_buffer (data : bytes) (objects : list Object) :
  ssa_ReadObjects data = Ok objects ->
  Forall (fun o => ~ is_CRD GetKind o) objects ->
  extractCRDs objects [] = Ok []
  /\ forall cueModDir file : string,
       importCrds cueModDir file data =
       match Importer_Generate (header +:+ file) [] with
       | Err err => Ret (Some err)
       | Ok crds => writeDefinitions cueModDir crds
       end.
Proof.
  intros Hread Hnone.
  assert (Hempty : extractCRDs objects [] = Ok []).
  { rewrite (extractCRDs_documents objects [] []); [done |].
    rewrite (filter_none _ _ Hnone). constructor. }
  split; [done |]. intros cueModDir file.
  by apply importCrds_generate with objects.
Qed.

Lemma extractCRDs_marshal_fails (pre post : list Object) (o : Object)
    (builder : bytes) (err : error) :
  Forall (fun o' => is_CRD GetKind o' -> exists d, yaml_Marshal o' = Ok d) pre ->
  is_CRD GetKind o ->
  yaml_Marshal o = Err err ->
  extractCRDs (pre ++ o :: post) builder
  = Err (wrapError ("marshaling CRD failed: " +:+ Error err) err).
Proof.
  intros Hpre Hk Herr. revert builder.
  induction Hpre as [| o' pre Ho' _ IH]; intros builder.
  - cbn. rewrite kind_test, bool_decide_eq_true_2 by done. by rewrite Herr.
  - cbn. rewrite kind_test. case_bool_decide as Hk'; [| apply IH].
    destruct (Ho' Hk') as [d ->]. apply IH.
Qed.

(** C9.  When the encoding of a selected object fails, the run stops there:
    it returns the cause wrapped as [marshaling CRD failed: <cause>], whatever
    objects follow, and makes no call after the source is read. *)
Theorem marshal_failure_aborts_run
    (flags : importCrdFlags) (args : list string) (w : W) (data : bytes)
    (pre post : list Object) (o : Object) (err : error) :
  let flags' := setModRoot flags args in
  let cueModDir := path.Join [modRoot flags'; "cue.mod"] in
  let o1 := interp h (loadCrdData cueModDir flags') w in
  ret o1 = Ok data ->
  ssa_ReadObjects data = Ok (pre ++ o :: post) ->
  Forall (fun o' => is_CRD GetKind o' -> exists d, yaml_Marshal o' = Ok d) pre ->
  is_CRD GetKind o ->
  yaml_Marshal o = Err err ->
  let failure := wrapError ("marshaling CRD failed: " +:+ Error err) err in
  extractCRDs (pre ++ o :: post) [] = Err failure
  /\ ret (interp h (runImportCrdCmd flags args) w) = Some failure
  /\ trace (interp h (runImportCrdCmd flags args) w) = trace o1.
Proof.
  intros flags' cueModDir o1 Hload Hread Hpre Hk Herr failure.
  pose proof (extractCRDs_marshal_fails pre post o [] err Hpre Hk Herr) as Hx.
  split; [exact Hx |].
  rewrite runImportCrdCmd_load. fold flags' cueModDir o1. rewrite Hload.
  unfold main.importCrds. rewrite Hread, Hx. cbn.
  by rewrite app_nil_r.
Qed.

(** *** The order of the keys *)

Lemma String_le_lt (s1 s2 : string) :
  String.le s1 s2 -> s1 <> s2 -> String.ltb s1 s2 = true.
Proof.
  unfold String.le, String.leb, String.ltb. intros Hle Hne.
  destruct (String.compare s1 s2) eqn:Hc; [| done | done].
  by apply String.compare_eq_iff in Hc.
Qed.

Lemma sort_Strings_Permutation (keys : list string) : sort_Strings keys ≡ₚ keys.
Proof. apply merge_sort_Permutation. Qed.

Lemma sort_Strings_unique (keys1 keys2 : list string) :
  keys1 ≡ₚ keys2 -> sort_Strings keys1 = sort_Strings keys2.
Proof.
  intros Hp. apply (Sorted_unique String.le).
  - apply Sorted_merge_sort, _.
  - apply Sorted_merge_sort, _.
  - by rewrite !sort_Strings_Permutation.
Qed.

Lemma strictly_ascending_of_sorted (keys : list string) :
  StronglySorted String.le keys -> NoDup keys -> strictly_ascending keys.
Proof.
  unfold strictly_ascending.
  induction 1 as [| k keys _ IH Hk]; intros Hnd; [constructor |].
  apply NoDup_cons in Hnd as [Hnotin Hnd]. constructor; [auto |].
  apply Forall_forall. intros k' Hin. apply String_le_lt.
  - rewrite Forall_forall in Hk. auto.
  - intros ->. done.
Qed.

Lemma sort_Strings_strict (keys : list string) :
  NoDup keys -> strictly_ascending (sort_Strings keys).
Proof.
  intros Hnd. apply strictly_ascending_of_sorted.
  - apply StronglySorted_merge_sort; apply _.
  - by rewrite sort_Strings_Permutation.
Qed.

(** *** The writer *)

Lemma writeKeys_cons (cueModDir : string) (crds : gmap string bytes)
    (k : string) (keys : list string) (w : W) :
  let log := log_Info ("generating: " +:+ colorizeSubject k) in
  let mkdir := os_MkdirAll (dstDir cueModDir k) ModePerm in
  let write := os_WriteFile (dstFile cueModDir k) (default [] (crds !! k)) 420%N in
  let w1 := after h log w in
  let w2 := after h mkdir w1 in
  let w3 := after h write w2 in
  interp h (writeKeys cueModDir crds (k :: keys)) w =
  match answer h mkdir w1 with
  | Some err =>
      {| ret := Some err; world := w2;
         trace := [entry log tt; entry mkdir (Some err)] |}
  | None =>
      match answer h write w2 with
      | Some err =>
          {| ret := Some err; world := w3;
             trace := [entry log tt; entry mkdir None; entry write (Some err)] |}
      | None =>
          let o := interp h (writeKeys cueModDir crds keys) w3 in
          {| ret := ret o; world := world o;
             trace := key_entries colorizeSubject cueModDir crds k ++ trace o |}
      end
  end.
Proof.
  intros log mkdir write w1 w2 w3. cbn [main.writeKeys].
  rewrite interp_call. fold log w1.
  destruct (answer h log w) as [].
  cbv zeta. rewrite interp_call. fold (dstDir cueModDir k) mkdir w2.
  destruct (answer h mkdir w1) as [err |]; [reflexivity |].
  rewrite interp_call. fold (dstFile cueModDir k) write w3.
  destruct (answer h write w2) as [err |]; reflexivity.
Qed.

Lemma writeKeys_success (cueModDir : string) (crds : gmap string bytes)
    (keys : list string) (w : W) :
  ret (interp h (writeKeys cueModDir crds keys) w) = None ->
  trace (interp h (writeKeys cueModDir crds keys) w)
  = flat_map (key_entries colorizeSubject cueModDir crds) keys.
Proof.
  revert w. induction keys as [| k keys IH]; intros w; [done |].
  rewrite writeKeys_cons. cbv zeta.
  destruct (answer h (os_MkdirAll _ _) _); [done |].
  destruct (answer h (os_WriteFile _ _ _) _); [done |].
  cbn [ret trace flat_map]. intros Hok. by rewrite IH.
Qed.

Lemma writeKeys_calls (cueModDir : string) (crds : gmap string bytes)
    (keys : list string) (w : W) :
  map call_of (trace (interp h (writeKeys cueModDir crds keys) w))
  `prefix_of` flat_map (key_calls colorizeSubject cueModDir crds) keys.
Proof.
  revert w. induction keys as [| k keys IH]; intros w; [done |].
  rewrite writeKeys_cons. cbv zeta.
  destruct (answer h (os_MkdirAll _ _) _).
  { cbn. do 2 apply prefix_cons. apply prefix_nil. }
  destruct (answer h (os_WriteFile _ _ _) _).
  { cbn. do 3 apply prefix_cons. apply prefix_nil. }
  cbn. do 3 apply prefix_cons. apply IH.
Qed.

(** The writer returns the error of the call that failed, as it is; that
    call is the last one, and no call before it failed. *)
Lemma writeKeys_failure (cueModDir : string) (crds : gmap string bytes)
    (keys : list string) (w : W) (err : error) :
  ret (interp h (writeKeys cueModDir crds keys) w) = Some err ->
  exists (t : list Entry) (en : Entry),
    trace (interp h (writeKeys cueModDir crds keys) w) = t ++ [en]
    /\ entry_error en = Some err
    /\ Forall (fun en' => entry_error en' = None) t.
Proof.
  revert w. induction keys as [| k keys IH]; intros w; [done |].
  rewrite writeKeys_cons. cbv zeta.
  destruct (answer h (os_MkdirAll _ _) _) as [e1 |] eqn:E1.
  { cbn. intros [= ->]. eexists [_], _. split; [reflexivity |].
    split; [reflexivity |]. by repeat constructor. }
  destruct (answer h (os_WriteFile _ _ _) _) as [e2 |] eqn:E2.
  { cbn. intros [= ->]. eexists [_; _], _. split; [reflexivity |].
    split; [reflexivity |]. by repeat constructor. }
  cbn [ret trace]. intros Hfail.
  destruct (IH _ Hfail) as (t & en & -> & Hen & Hall).
  exists (key_entries colorizeSubject cueModDir crds k ++ t), en.
  split; [by rewrite app_assoc |]. split; [done |].
  apply Forall_app. split; [| done]. by repeat constructor.
Qed.

Lemma writeDefinitions_run (cueModDir : string) (crds : gmap string bytes) (w : W) :
  let keys := sort_Strings (answer h (range_keys crds) w) in
  let o := interp h (writeKeys cueModDir crds keys) (after h (range_keys crds) w) in
  interp h (writeDefinitions cueModDir crds) w =
  {| ret := ret o; world := world o;
     trace := entry (range_keys crds) (answer h (range_keys crds) w) :: trace o |}.
Proof. unfold main.writeDefinitions. by rewrite interp_call. Qed.

(** C2.  The writer takes the keys of the generation map in strictly
    ascending byte-wise order, whatever order the runtime ranges over them
    in.  For each key in that order it creates the directory
    [<module-root>/cue.mod/gen/<key>] with [os.MkdirAll] and then writes the
    bytes of the key to [types_gen.cue] in that directory; it makes no other
    call, stops at the first failure, and when it returns no error it has
    made these calls for every key.  The directory is the join of the module
    root, [cue.mod], [gen] and the key; for a root and a key made of ordinary
    path elements that is the text [<root>/cue.mod/gen/<key>]. *)
Theorem writer_visits_keys_in_order
    (root : string) (crds : gmap string bytes) (w : W) :
  answer h (range_keys crds) w ≡ₚ (map_to_list crds).*1 ->
  let cueModDir := path.Join [root; "cue.mod"] in
  let keys := sort_Strings (answer h (range_keys crds) w) in
  let o := interp h (writeDefinitions cueModDir crds) w in
  strictly_ascending keys
  /\ (forall k, k ∈ keys <-> is_Some (crds !! k))
  /\ keys = sort_Strings (map_to_list crds).*1
  /\ map call_of (trace o)
     `prefix_of` (mkCall (range_keys crds)
                    :: flat_map (key_calls colorizeSubject cueModDir crds) keys)
  /\ (ret o = None ->
      trace o = entry (range_keys crds) (answer h (range_keys crds) w)
                  :: flat_map (key_entries colorizeSubject cueModDir crds) keys)
  /\ (forall (rooted : bool) (es key : list string),
        root = path_of rooted es ->
        Forall plain_elem es -> es <> [] ->
        Forall plain_elem key -> key <> [] ->
        dstDir cueModDir (path_of false key)
        = path_of rooted (es ++ ["cue.mod"; "gen"] ++ key)
        /\ dstFile cueModDir (path_of false key)
           = path_of rooted (es ++ ["cue.mod"; "gen"] ++ key ++ ["types_gen.cue"])).
Proof.
  intros Hrange cueModDir keys o.
  assert (Hkeys : keys ≡ₚ (map_to_list crds).*1).
  { subst keys. by rewrite sort_Strings_Permutation. }
  split; [| split; [| split; [| split; [| split]]]].
  - apply sort_Strings_strict. rewrite Hrange. apply NoDup_fst_map_to_list.
  - intros k. rewrite Hkeys, list_elem_of_fmap. split.
    + intros [[k' d] [-> Hin]]. apply elem_of_map_to_list in Hin. by exists d.
    + intros [d Hd]. exists (k, d). split; [done |]. by apply elem_of_map_to_list.
  - by apply sort_Strings_unique.
  - subst o. rewrite writeDefinitions_run. cbn. apply prefix_cons, writeKeys_calls.
  - subst o. rewrite writeDefinitions_run. cbn. intros Hok.
    by rewrite (writeKeys_success _ _ _ _ Hok).
  - intros rooted es key -> Hes Hne Hkey Hnk.
    by apply dstFile_path_of.
Qed.

(** *** Regeneration *)

Local Abbreviation generation :=
  (generated GetKind ssa_ReadObjects yaml_Marshal Importer_Generate).

Lemma importCrds_generated (cueModDir file : string) (data : bytes) :
  importCrds cueModDir file data =
  match generation file data with
  | Err err => Ret (Some err)
  | Ok crds => writeDefinitions cueModDir crds
  end.
Proof.
  unfold main.importCrds, generated.
  destruct (ssa_ReadObjects data) as [objects | err]; [| done].
  destruct (extractCRDs objects []) as [builder | err]; [| done].
  by rewrite list_byte_of_string_of_list_byte.
Qed.

Lemma loadCrdData_writes (cueModDir : string) (flags : importCrdFlags) (w : W) :
  writes (trace (interp h (loadCrdData cueModDir flags) w)) = [].
Proof.
  unfold loadCrdData. rewrite interp_call.
  destruct (answer h (os_Stat cueModDir) w) as [fs1 | e1];
    [destruct (IsDir fs1) |]; cbn [negb]; try done.
  rewrite interp_call.
  destruct (answer h (os_Stat (crdFile flags)) _) as [fs2 | e2];
    [destruct (FileMode_IsRegular (Mode fs2)) |]; cbn [negb]; try done.
  rewrite interp_call.
  destruct (answer h (os_Open (crdFile flags)) _) as [f | e3]; [| done].
  cbn. by destruct (h _ (io_ReadAll f) _) as [[] ?].
Qed.

Lemma writes_key_entries (cueModDir : string) (crds : gmap string bytes)
    (keys : list string) :
  writes (flat_map (key_entries colorizeSubject cueModDir crds) keys)
  = map (fun k => (dstFile cueModDir k, default [] (crds !! k))) keys.
Proof. induction keys as [| k keys IH]; [done |]. cbn. f_equal. apply IH. Qed.

(** After a writer that returns no error, a path holds the bytes of the
    last key written to it, and what it held before if no key was. *)
Lemma writeKeys_contents (contents : W -> string -> option bytes)
    (cueModDir : string) (crds : gmap string bytes) (keys : list string) (w : W) :
  file_store h contents ->
  ret (interp h (writeKeys cueModDir crds keys) w) = None ->
  forall p,
    contents (world (interp h (writeKeys cueModDir crds keys) w)) p
    = match layout cueModDir crds keys !! p with
      | Some d => Some d
      | None => contents w p
      end.
Proof.
  intros Hstore. revert w. induction keys as [| k keys IH]; intros w; [done |].
  rewrite writeKeys_cons. cbv zeta.
  destruct (answer h (os_MkdirAll _ _) _) eqn:Emk; [done |].
  destruct (answer h (os_WriteFile _ _ _) _) eqn:Ewr; [done |].
  cbn [ret world]. intros Hok p. rewrite (IH _ Hok). cbn [layout].
  destruct (layout cueModDir crds keys !! p) as [d |] eqn:El.
  - by rewrite (lookup_union_Some_l _ _ _ _ El).
  - rewrite lookup_union_r by done.
    destruct (store_write _ _ Hstore _ _ _ _ Ewr) as [Hsame Hother].
    destruct (decide (p = dstFile cueModDir k)) as [-> | Hne].
    + by rewrite lookup_singleton_eq.
    + rewrite lookup_singleton_ne by done. rewrite (Hother _ Hne).
      rewrite (store_mkdir _ _ Hstore _ _ _ _ Emk). apply (store_log _ _ Hstore).
Qed.

(** The shape of a run that loads [data] and returns no error. *)
Lemma run_success (flags : importCrdFlags) (args : list string) (w : W)
    (data : bytes) :
  ranges_over_keys h ->
  let flags' := setModRoot flags args in
  let cueModDir := path.Join [modRoot flags'; "cue.mod"] in
  let o1 := interp h (loadCrdData cueModDir flags') w in
  let o := interp h (runImportCrdCmd flags args) w in
  ret o1 = Ok data ->
  ret o = None ->
  exists crds,
    let keys := sort_Strings (map_to_list crds).*1 in
    let ow := interp h (writeKeys cueModDir crds keys)
                (after h (range_keys crds) (world o1)) in
    generation (crdFile flags') data = Ok crds
    /\ ret ow = None
    /\ world o = world ow
    /\ trace o = trace o1
                  ++ entry (range_keys crds) (answer h (range_keys crds) (world o1))
                  :: flat_map (key_entries colorizeSubject cueModDir crds) keys.
Proof.
  intros Hrange flags' cueModDir o1 o Hload. subst o.
  rewrite runImportCrdCmd_load. fold flags' cueModDir o1. rewrite Hload.
  rewrite importCrds_generated.
  destruct (generation (crdFile flags') data) as [crds | err]; [| done].
  rewrite writeDefinitions_run.
  rewrite (sort_Strings_unique _ _ (Hrange crds (world o1))).
  cbn. intros Hok. exists crds. split; [done |]. split; [done |].
  split; [done |]. by rewrite (writeKeys_success _ _ _ _ Hok).
Qed.

(** C4.  Two runs of the command that load the same source bytes, for the
    same module root and with the same generator, and that both succeed,
    make the same writes in the same order, and leave at every output path
    the same bytes: those of the last key written there, whatever the path
    held before the run. *)
Theorem regeneration_is_byte_identical
    (contents : W -> string -> option bytes)
    (flags : importCrdFlags) (args : list string) (w_a w_b : W) (data : bytes) :
  file_store h contents ->
  ranges_over_keys h ->
  let flags' := setModRoot flags args in
  let cueModDir := path.Join [modRoot flags'; "cue.mod"] in
  ret (interp h (loadCrdData cueModDir flags') w_a) = Ok data ->
  ret (interp h (loadCrdData cueModDir flags') w_b) = Ok data ->
  let o_a := interp h (runImportCrdCmd flags args) w_a in
  let o_b := interp h (runImportCrdCmd flags args) w_b in
  ret o_a = None ->
  ret o_b = None ->
  exists crds,
    generation (crdFile flags') data = Ok crds
    /\ writes (trace o_a) = planned_writes cueModDir crds
    /\ writes (trace o_b) = planned_writes cueModDir crds
    /\ forall p d,
         outputLayout cueModDir crds !! p = Some d ->
         contents (world o_a) p = Some d /\ contents (world o_b) p = Some d.
Proof.
  intros Hstore Hrange flags' cueModDir Ha Hb o_a o_b Hoka Hokb.
  destruct (run_success flags args w_a data Hrange Ha Hoka)
    as (crds & Hgen & Hwa & Hworld_a & Htrace_a).
  destruct (run_success flags args w_b data Hrange Hb Hokb)
    as (crds' & Hgen' & Hwb & Hworld_b & Htrace_b).
  fold flags' in Hgen, Hgen'. rewrite Hgen in Hgen'. injection Hgen' as <-.
  fold flags' cueModDir in Hwa, Hwb, Hworld_a, Hworld_b, Htrace_a, Htrace_b.
  exists crds. split; [done |].
  assert (Hwrites : forall t1 r,
    writes t1 = [] ->
    writes (t1 ++ entry (range_keys crds) r
              :: flat_map (key_entries colorizeSubject cueModDir crds)
                   (sort_Strings (map_to_list crds).*1))
    = planned_writes cueModDir crds).
  { intros t1 r Ht1. unfold writes in *. rewrite omap_app, Ht1. cbn.
    apply writes_key_entries. }
  split; [| split].
  - subst o_a. rewrite Htrace_a. apply Hwrites, loadCrdData_writes.
  - subst o_b. rewrite Htrace_b. apply Hwrites, loadCrdData_writes.
  - intros p d Hp. unfold outputLayout in Hp. subst o_a o_b.
    rewrite Hworld_a, Hworld_b.
    rewrite (writeKeys_contents contents _ _ _ _ Hstore Hwa).
    rewrite (writeKeys_contents contents _ _ _ _ Hstore Hwb).
    by rewrite Hp.
Qed.

(** *** Errors *)

(** A loader that gives the bytes has had every call answered without an
    error. *)
Lemma loadCrdData_ok (cueModDir : string) (flags : importCrdFlags) (w : W)
    (data : bytes) :
  ret (interp h (loadCrdData cueModDir flags) w) = Ok data ->
  Forall (fun en => entry_error en = None)
    (trace (interp h (loadCrdData cueModDir flags) w)).
Proof.
  unfold loadCrdData. rewrite interp_call.
  destruct (answer h (os_Stat cueModDir) w) as [fs1 | e1];
    [destruct (IsDir fs1) |]; cbn [negb]; try done.
  rewrite interp_call.
  destruct (answer h (os_Stat (crdFile flags)) _) as [fs2 | e2];
    [destruct (FileMode_IsRegular (Mode fs2)) |]; cbn [negb]; try done.
  rewrite interp_call.
  destruct (answer h (os_Open (crdFile flags)) _) as [f | e3]; [| done].
  cbn. destruct (h _ (io_ReadAll f) _) as [[d | e4] w4]; cbn; [| done].
  intros _. by repeat constructor.
Qed.

(** C10.  Without a positional argument the module root is the empty string
    and the marker is looked up at the relative path [cue.mod]: the run
    starts with the stat of it.  If that is not a directory the run fails
    with the module-not-found error; if it is, the run goes on to the source
    file.  The missing argument itself is never an error. *)
Theorem missing_module_path_uses_working_directory (file : option string) (w : W) :
  let flags := setModRoot (init file importCrdArgs) [] in
  let o := interp h (Execute file []) w in
  let marker := answer h (os_Stat "cue.mod") w in
  let source := default EmptyString file in
  modRoot flags = EmptyString
  /\ path.Join [modRoot flags; "cue.mod"] = "cue.mod"
  /\ (exists t, trace o = entry (os_Stat "cue.mod") marker :: t)
  /\ ((forall fs, marker = Ok fs -> IsDir fs = false) ->
      ret o = Some (errorString "cue.mod not found in the module path ")
      /\ trace o = [entry (os_Stat "cue.mod") marker])
  /\ (forall fs, marker = Ok fs -> IsDir fs = true ->
      exists t, trace o
                = entry (os_Stat "cue.mod") marker
                    :: entry (os_Stat source)
                         (answer h (os_Stat source) (after h (os_Stat "cue.mod") w))
                    :: t).
Proof.
  intros flags o marker source.
  split; [reflexivity |]. split; [reflexivity |].
  split; [| split].
  - subst o. unfold main.Execute. rewrite runImportCrdCmd_load.
    destruct (loadCrdData_first_call "cue.mod" flags w) as [t Ht].
    change (path.Join [modRoot (setModRoot (init file importCrdArgs) []); "cue.mod"])
      with "cue.mod".
    fold flags. rewrite Ht. cbv zeta.
    destruct (ret _); cbn; eauto.
  - intros Hdir.
    apply (runImportCrdCmd_no_module (init file importCrdArgs) [] w Hdir).
  - intros fs Hfs Hd. subst o. unfold main.Execute.
    rewrite runImportCrdCmd_load.
    destruct (loadCrdData_second_call "cue.mod" flags w fs Hfs Hd) as [t Ht].
    change (path.Join [modRoot (setModRoot (init file importCrdArgs) []); "cue.mod"])
      with "cue.mod".
    fold flags. rewrite Ht. cbv zeta. subst marker. rewrite Hfs.
    destruct (ret _); cbn; eauto.
Qed.

End Properties.

(** ** The header *)

(** C3.  The header is the banner, an empty line and the directive
    [//timoni:generate timoni import crd -f <file>].  The command is
    registered under [mod import], and its own example invokes it as
    [timoni mod import crd -f crds.yaml]: for that source the command the
    header records is not the invocation that regenerates the file. *)
Theorem header_command_is_not_the_invocation :
  (forall file : string,
     header +:+ file
     = "// Code generated by timoni. DO NOT EDIT."
       +:+ String LF (String LF ("//timoni:generate timoni import crd -f " +:+ file)))
  /\ importCrdCmd_Example
     = "  # generate CUE definitions from a local YAML file"
       +:+ String LF ("  timoni mod import crd -f crds.yaml" +:+ String LF EmptyString)
  /\ "timoni import crd -f " +:+ "crds.yaml" <> example_invocation.
Proof.
  split; [| split].
  - intros file. reflexivity.
  - reflexivity.
  - discriminate.
Qed.

(** ** The command on the file system in memory *)

Lemma memfs_file_store : file_store memfs.handler memfs.contents.
Proof.
  split.
  - intros p data perm w. unfold answer, after, memfs.contents. cbn.
    destruct (w !! p) as [[| d] |] eqn:E; cbn; [done | |];
      (intros _; split; [by rewrite lookup_insert_eq |]);
      intros q Hq; by rewrite lookup_insert_ne.
  - intros p perm w q. unfold answer, after, memfs.contents. cbn.
    destruct (w !! p) as [[| d] |] eqn:E; cbn; [| done |]; intros _.
    + destruct (decide (p = q)) as [-> | Hne].
      * by rewrite lookup_insert_eq, E.
      * by rewrite lookup_insert_ne.
    + destruct (decide (p = q)) as [-> | Hne].
      * by rewrite lookup_insert_eq, E.
      * by rewrite lookup_insert_ne.
  - done.
Qed.

Lemma memfs_ranges_over_keys : ranges_over_keys memfs.handler.
Proof.
  intros m w. unfold answer. cbn.
  by rewrite reverse_Permutation, sort_Strings_Permutation.
Qed.

(** The filter on a mixed sequence: the ConfigMap leaves no trace. *)
Example extractCRDs_mixed :
  extractCRDs stub.Object stub.GetKind stub.yaml_Marshal
    [("CustomResourceDefinition", example.src "ba"); ("ConfigMap", example.src "zz");
     ("CustomResourceDefinition", example.src "c")] []
  = Ok (list_byte_of_string
          ("---" +:+ String LF ("ba---" +:+ String LF "c"))).
Proof. reflexivity. Qed.

(** The kind is compared as it is: another case is another kind. *)
Example extractCRDs_case :
  extractCRDs stub.Object stub.GetKind stub.yaml_Marshal
    [("customresourcedefinition", example.src "ba")] [] = Ok [].
Proof. reflexivity. Qed.

Lemma single_document_text_lines_1 :
  single_document example.widgets.2 /\ single_document example.gadgets.2.
Proof.
  split; (split; [reflexivity |]).
  - apply (bool_decide_unpack (separator_line ∉ lines example.widgets.2)).
    vm_compute. exact I.
  - apply (bool_decide_unpack (separator_line ∉ lines example.gadgets.2)).
    vm_compute. exact I.
Qed.

(** Two CRDs around a Deployment: the buffer holds the two CRDs, each
    behind its separator line, and nothing of the Deployment. *)
Lemma crd_filter_buffer_witness :
  Forall2 (fun o d => stub.yaml_Marshal o = Ok d)
    (filter (is_CRD stub.GetKind) example.mixed_objects) example.mixed_docs
  /\ Forall single_document example.mixed_docs
  /\ Forall (is_CRD stub.GetKind) example.only_crds
  /\ extractCRDs stub.Object stub.GetKind stub.yaml_Marshal example.mixed_objects []
     = Ok (example.text_lines
             ["---"; "name: widgets"; "scope: Namespaced"; "---"; "name: gadgets"])
  /\ yaml_documents
       (example.text_lines
          ["---"; "name: widgets"; "scope: Namespaced"; "---"; "name: gadgets"])
     = example.mixed_docs
  /\ (exists buffer,
        extractCRDs stub.Object stub.GetKind stub.yaml_Marshal example.only_crds []
        = Ok buffer
        /\ document_count buffer = length example.only_crds).
Proof.
  assert (H : Forall2 (fun o d => stub.yaml_Marshal o = Ok d)
                (filter (is_CRD stub.GetKind) example.mixed_objects)
                example.mixed_docs).
  { vm_compute. repeat constructor. }
  assert (H' : Forall2 (fun o d => stub.yaml_Marshal o = Ok d)
                 (filter (is_CRD stub.GetKind) example.only_crds)
                 example.mixed_docs).
  { vm_compute. repeat constructor. }
  assert (Hs : Forall single_document example.mixed_docs).
  { destruct single_document_text_lines_1 as [Hw Hg].
    constructor; [exact Hw | constructor; [exact Hg | constructor]]. }
  assert (Hc : Forall (is_CRD stub.GetKind) example.only_crds).
  { constructor; [reflexivity | constructor; [reflexivity | constructor]]. }
  split; [exact H |]. split; [exact Hs |]. split; [exact Hc |].
  destruct (crd_filter_buffer stub.Object stub.GetKind stub.yaml_Marshal
              example.mixed_objects example.mixed_docs H)
    as (buffer & Hx & Hbuffer & Hread).
  destruct (Hread Hs) as (Hback & _ & _).
  rewrite Hbuffer in Hx, Hback.
  split; [exact Hx |]. split; [exact Hback |].
  destruct (crd_filter_buffer stub.Object stub.GetKind stub.yaml_Marshal
              example.only_crds example.mixed_docs H')
    as (buffer' & Hx' & _ & Hread').
  destruct (Hread' Hs) as (_ & _ & Hall).
  exists buffer'. split; [exact Hx' |]. apply Hall, Hc.
Defined.

Lemma writer_visits_keys_in_order_witness :
  answer memfs.handler (range_keys example.two_keys) ∅
    ≡ₚ (map_to_list example.two_keys).*1
  /\ answer memfs.handler (range_keys example.two_keys) ∅ = ["b"; "a"]
  /\ strictly_ascending ["a"; "b"]
  /\ trace (interp memfs.handler
              (writeDefinitions stub.colorizeSubject "m/cue.mod" example.two_keys) ∅)
     = [ entry (range_keys example.two_keys) ["b"; "a"];
         entry (log_Info "generating: a") tt;
         entry (os_MkdirAll "m/cue.mod/gen/a" ModePerm) None;
         entry (os_WriteFile "m/cue.mod/gen/a/types_gen.cue" (example.src "1") 420%N) None;
         entry (log_Info "generating: b") tt;
         entry (os_MkdirAll "m/cue.mod/gen/b" ModePerm) None;
         entry (os_WriteFile "m/cue.mod/gen/b/types_gen.cue" (example.src "2") 420%N) None ]
  /\ dstDir (path.Join ["m"; "cue.mod"]) "example.com/widget/v1"
     = "m/cue.mod/gen/example.com/widget/v1"
     /\ dstFile (path.Join ["m"; "cue.mod"]) "example.com/widget/v1"
        = "m/cue.mod/gen/example.com/widget/v1/types_gen.cue".
Proof.
  assert (H : answer memfs.handler (range_keys example.two_keys) ∅
                ≡ₚ (map_to_list example.two_keys).*1)
    by apply memfs_ranges_over_keys.
  split; [exact H |]. split; [reflexivity |].
  destruct (writer_visits_keys_in_order stub.colorizeSubject _ memfs.handler
              "m" example.two_keys ∅ H) as (Hasc & _ & _ & _ & Hok & Hpath).
  split; [exact Hasc |].
  split; [apply Hok; reflexivity |].
  apply (Hpath false ["m"] ["example.com"; "widget"; "v1"]).
  - reflexivity.
  - repeat (constructor; [by apply plain_elemb_correct |]). constructor.
  - discriminate.
  - repeat (constructor; [by apply plain_elemb_correct |]). constructor.
  - discriminate.
Defined.

(** A second run over the files the first one left writes the same bytes;
    the stale file at the path of key [a] is replaced. *)
Lemma regeneration_is_byte_identical_witness :
  memfs.contents example.stale "m/cue.mod/gen/a/types_gen.cue"
    = Some (example.src "stale")
  /\ ret (example.load example.stale) = Ok example.crds_yaml
  /\ ret (example.load (world (example.run ["m"] example.stale))) = Ok example.crds_yaml
  /\ ret (example.run ["m"] example.stale) = None
  /\ ret (example.run ["m"] (world (example.run ["m"] example.stale))) = None
  /\ exists crds,
       example.generated example.crds_yaml = Ok crds
       /\ writes (trace (example.run ["m"] example.stale))
          = planned_writes "m/cue.mod" crds
       /\ writes (trace (example.run ["m"] (world (example.run ["m"] example.stale))))
          = planned_writes "m/cue.mod" crds
       /\ forall p d,
            outputLayout "m/cue.mod" crds !! p = Some d ->
            memfs.contents (world (example.run ["m"] example.stale)) p = Some d
            /\ memfs.contents
                 (world (example.run ["m"] (world (example.run ["m"] example.stale)))) p
               = Some d.
Proof.
  split; [reflexivity |].
  assert (Ha : ret (example.load example.stale) = Ok example.crds_yaml)
    by (vm_compute; reflexivity).
  assert (Hb : ret (example.load (world (example.run ["m"] example.stale)))
               = Ok example.crds_yaml)
    by (vm_compute; reflexivity).
  assert (Hoka : ret (example.run ["m"] example.stale) = None)
    by (vm_compute; reflexivity).
  assert (Hokb : ret (example.run ["m"] (world (example.run ["m"] example.stale))) = None)
    by (vm_compute; reflexivity).
  split; [exact Ha |]. split; [exact Hb |].
  split; [exact Hoka |]. split; [exact Hokb |].
  exact (regeneration_is_byte_identical stub.Object stub.GetKind
           stub.ssa_ReadObjects stub.yaml_Marshal stub.Importer_Generate
           stub.colorizeSubject _ memfs.handler memfs.contents
           example.flags ["m"] example.stale
           (world (example.run ["m"] example.stale)) example.crds_yaml
           memfs_file_store memfs_ranges_over_keys Ha Hb Hoka Hokb).
Defined.

Lemma module_root_checked_before_source_witness :
  (forall fs, answer memfs.handler (os_Stat "m/cue.mod") example.no_module = Ok fs ->
              IsDir fs = false)
  /\ ret (example.run ["m"] example.no_module)
     = Some (errorString "cue.mod not found in the module path m")
  /\ trace (example.run ["m"] example.no_module)
     = [entry (os_Stat "m/cue.mod") (Err (memfs.ENOENT "stat" "m/cue.mod"))].
Proof.
  assert (H : forall fs,
            answer memfs.handler (os_Stat "m/cue.mod") example.no_module = Ok fs ->
            IsDir fs = false).
  { intros fs Hfs. vm_compute in Hfs. discriminate Hfs. }
  split; [exact H |].
  exact (module_root_checked_before_source stub.Object stub.GetKind
           stub.ssa_ReadObjects stub.yaml_Marshal stub.Importer_Generate
           stub.colorizeSubject _ memfs.handler example.flags ["m"]
           example.no_module H).
Defined.

Lemma source_not_regular_is_not_read_witness :
  answer memfs.handler (os_Stat "m/cue.mod") example.source_is_dir
    = Ok {| Mode := N.lor ModeDir 493 |}
  /\ IsDir {| Mode := N.lor ModeDir 493 |} = true
  /\ (forall fs, answer memfs.handler (os_Stat "crds.yaml") example.source_is_dir = Ok fs ->
                 FileMode_IsRegular (Mode fs) = false)
  /\ ret (example.run ["m"] example.source_is_dir)
     = Some (errorString "path not found: crds.yaml")
  /\ trace (example.run ["m"] example.source_is_dir)
     = [entry (os_Stat "m/cue.mod") (Ok {| Mode := N.lor ModeDir 493 |});
        entry (os_Stat "crds.yaml") (Ok {| Mode := N.lor ModeDir 493 |})].
Proof.
  assert (H : forall fs,
            answer memfs.handler (os_Stat "crds.yaml") example.source_is_dir = Ok fs ->
            FileMode_IsRegular (Mode fs) = false).
  { intros fs Hfs. vm_compute in Hfs. injection Hfs as <-. reflexivity. }
  split; [reflexivity |]. split; [reflexivity |]. split; [exact H |].
  exact (source_not_regular_is_not_read stub.Object stub.GetKind
           stub.ssa_ReadObjects stub.yaml_Marshal stub.Importer_Generate
           stub.colorizeSubject _ memfs.handler example.flags ["m"]
           example.source_is_dir {| Mode := N.lor ModeDir 493 |}
           eq_refl eq_refl H).
Defined.

Lemma no_crd_empty_buffer_witness :
  stub.ssa_ReadObjects example.rbac_yaml
    = Ok [("ConfigMap", example.src "zz"); ("Secret", example.src "s")]
  /\ Forall (fun o => ~ is_CRD stub.GetKind o)
       [("ConfigMap", example.src "zz"); ("Secret", example.src "s")]
  /\ extractCRDs stub.Object stub.GetKind stub.yaml_Marshal
       [("ConfigMap", example.src "zz"); ("Secret", example.src "s")] [] = Ok []
  /\ ret (example.run ["m"] (example.module_with example.rbac_yaml)) = None.
Proof.
  assert (Hread : stub.ssa_ReadObjects example.rbac_yaml
                  = Ok [("ConfigMap", example.src "zz"); ("Secret", example.src "s")])
    by reflexivity.
  assert (Hnone : Forall (fun o => ~ is_CRD stub.GetKind o)
                    [("ConfigMap", example.src "zz"); ("Secret", example.src "s")]).
  { repeat constructor; intros Hk; discriminate Hk. }
  split; [exact Hread |]. split; [exact Hnone |].
  destruct (no_crd_empty_buffer stub.Object stub.GetKind stub.ssa_ReadObjects
              stub.yaml_Marshal stub.Importer_Generate stub.colorizeSubject
              _ _ Hread Hnone) as [Hempty _].
  split; [exact Hempty |]. vm_compute. reflexivity.
Defined.

Lemma marshal_failure_aborts_run_witness :
  ret (example.load (example.module_with example.hollow_yaml)) = Ok example.hollow_yaml
  /\ stub.ssa_ReadObjects example.hollow_yaml
     = Ok ([("CustomResourceDefinition", example.src "a")]
             ++ ("CustomResourceDefinition", []) :: [("CustomResourceDefinition", example.src "b")])
  /\ stub.yaml_Marshal ("CustomResourceDefinition", []) = Err (errorString "empty body")
  /\ ret (example.run ["m"] (example.module_with example.hollow_yaml))
     = Some (wrapError "marshaling CRD failed: empty body" (errorString "empty body"))
  /\ trace (example.run ["m"] (example.module_with example.hollow_yaml))
     = trace (example.load (example.module_with example.hollow_yaml)).
Proof.
  assert (Hload : ret (example.load (example.module_with example.hollow_yaml))
                  = Ok example.hollow_yaml)
    by (vm_compute; reflexivity).
  assert (Hread : stub.ssa_ReadObjects example.hollow_yaml
     = Ok ([("CustomResourceDefinition", example.src "a")]
             ++ ("CustomResourceDefinition", []) :: [("CustomResourceDefinition", example.src "b")]))
    by reflexivity.
  assert (Hpre : Forall (fun o' => is_CRD stub.GetKind o' ->
                                   exists d, stub.yaml_Marshal o' = Ok d)
                   [("CustomResourceDefinition", example.src "a")]).
  { repeat constructor. intros _. eexists. reflexivity. }
  split; [exact Hload |]. split; [exact Hread |]. split; [reflexivity |].
  destruct (marshal_failure_aborts_run stub.Object stub.GetKind
              stub.ssa_ReadObjects stub.yaml_Marshal stub.Importer_Generate
              stub.colorizeSubject _ memfs.handler example.flags ["m"]
              (example.module_with example.hollow_yaml) example.hollow_yaml
              _ _ _ (errorString "empty body") Hload Hread Hpre eq_refl eq_refl)
    as (_ & Hret & Htrace).
  split; [exact Hret | exact Htrace].
Defined.

(** The generator refuses the schema: the run returns the error of the
    generator itself, which wraps nothing and carries no context of the
    pipeline. *)
Lemma generator_failure_is_not_wrapped :
  ret (example.load (example.module_with example.refused_yaml)) = Ok example.refused_yaml
  /\ stub.Importer_Generate (header +:+ "crds.yaml") (documents [example.src "a!"])
     = Err (errorString "unsupported schema")
  /\ ret (example.run ["m"] (example.module_with example.refused_yaml))
     = Some (errorString "unsupported schema")
  /\ ~ (exists msg cause,
          ret (example.run ["m"] (example.module_with example.refused_yaml))
          = Some (wrapError msg cause)).
Proof.
  split; [vm_compute; reflexivity |]. split; [vm_compute; reflexivity |].
  assert (H : ret (example.run ["m"] (example.module_with example.refused_yaml))
              = Some (errorString "unsupported schema"))
    by (vm_compute; reflexivity).
  split; [exact H |].
  intros (msg & cause & Hw). rewrite H in Hw. discriminate Hw.
Qed.

(** With [cue.mod] in the working directory the command runs to the end
    without a module path; without it the command reports the marker, not
    the argument. *)
Lemma missing_module_path_uses_working_directory_witness :
  ret (example.run [] (example.cwd_module_with example.crds_yaml)) = None
  /\ (exists t,
        trace (example.run [] (example.cwd_module_with example.crds_yaml))
        = entry (os_Stat "cue.mod") (Ok {| Mode := N.lor ModeDir 493 |})
            :: entry (os_Stat "crds.yaml") (Ok {| Mode := 420%N |}) :: t)
  /\ ret (example.run [] (example.module_with example.crds_yaml))
     = Some (errorString "cue.mod not found in the module path ")
  /\ trace (example.run [] (example.module_with example.crds_yaml))
     = [entry (os_Stat "cue.mod") (Err (memfs.ENOENT "stat" "cue.mod"))].
Proof.
  pose (thm := missing_module_path_uses_working_directory stub.Object stub.GetKind
                 stub.ssa_ReadObjects stub.yaml_Marshal stub.Importer_Generate
                 stub.colorizeSubject _ memfs.handler (Some "crds.yaml")).
  split; [vm_compute; reflexivity |]. split.
  - destruct (thm (example.cwd_module_with example.crds_yaml))
      as (_ & _ & _ & _ & Hgo).
    apply (Hgo {| Mode := N.lor ModeDir 493 |}); reflexivity.
  - destruct (thm (example.module_with example.crds_yaml))
      as (_ & _ & _ & Hfail & _).
    apply Hfail. intros fs Hfs. vm_compute in Hfs. discriminate Hfs.
Defined.

(** * Further properties *)

Section Filter.

Variable Object : Type.
Variable GetKind : Object -> string.
Variable yaml_Marshal : Object -> result bytes.

Local Abbreviation extractCRDs := (main.extractCRDs Object GetKind yaml_Marshal).

(** X1.  The filter over a concatenation is the filter over the first part
    followed, if that succeeds, by the filter over the second part started
    with the buffer the first left. *)
Theorem extractCRDs_app (objects1 objects2 : list Object) (builder : bytes) :
  extractCRDs (objects1 ++ objects2) builder
  = match extractCRDs objects1 builder with
    | Ok builder1 => extractCRDs objects2 builder1
    | Err err => Err err
    end.
Proof.
  revert builder. induction objects1 as [| o objects1 IH]; intros builder; [done |].
  cbn. destruct (String.eqb (GetKind o) "CustomResourceDefinition"); [| apply IH].
  destruct (yaml_Marshal o) as [data | err]; [apply IH | done].
Qed.

(** X2.  What the filter appends does not depend on what the buffer holds:
    the result is the buffer followed by the result for the empty buffer,
    and the failure is the same. *)
Theorem extractCRDs_builder (objects : list Object) (builder : bytes) :
  extractCRDs objects builder
  = match extractCRDs objects [] with
    | Ok buffer => Ok (builder ++ buffer)
    | Err err => Err err
    end.
Proof.
  revert builder. induction objects as [| o objects IH]; intros builder.
  - cbn. by rewrite app_nil_r.
  - cbn. destruct (String.eqb (GetKind o) "CustomResourceDefinition"); [| apply IH].
    destruct (yaml_Marshal o) as [data | err]; [| done].
    rewrite (IH (_ ++ data)), (IH (list_byte_of_string separator ++ data)).
    destruct (main.extractCRDs _ _ _ objects []); [| done].
    by rewrite <- !app_assoc.
Qed.

(** X3.  The filter succeeds exactly when every object of kind
    [CustomResourceDefinition] can be encoded; objects of another kind never
    make it fail. *)
Theorem extractCRDs_succeeds_iff (objects : list Object) (builder : bytes) :
  (exists buffer, extractCRDs objects builder = Ok buffer)
  <-> Forall (fun o => is_CRD GetKind o -> exists d, yaml_Marshal o = Ok d) objects.
Proof.
  revert builder. induction objects as [| o objects IH]; intros builder.
  - split; [constructor | cbn; eauto].
  - cbn. rewrite kind_test. case_bool_decide as Hk.
    + destruct (yaml_Marshal o) as [data | err] eqn:Hm.
      * rewrite IH. split.
        -- intros Hall. constructor; [eauto | done].
        -- intros Hall. by apply Forall_cons in Hall as [_ Hall].
      * split; [intros [buffer [=]] |].
        intros Hall. apply Forall_cons in Hall as [Ho _].
        destruct (Ho Hk) as [d Hd]. congruence.
    + rewrite IH. split.
      * intros Hall. constructor; [done | done].
      * intros Hall. by apply Forall_cons in Hall as [_ Hall].
Qed.

(** X4.  A failure of the filter is the encoding error of the first object
    of kind [CustomResourceDefinition] that cannot be encoded, wrapped as
    [marshaling CRD failed: <cause>]. *)
Theorem extractCRDs_failure_cause (objects : list Object) (builder : bytes)
    (failure : error) :
  extractCRDs objects builder = Err failure ->
  exists (pre post : list Object) (o : Object) (err : error),
    objects = pre ++ o :: post
    /\ Forall (fun o' => is_CRD GetKind o' -> exists d, yaml_Marshal o' = Ok d) pre
    /\ is_CRD GetKind o
    /\ yaml_Marshal o = Err err
    /\ failure = wrapError ("marshaling CRD failed: " +:+ Error err) err.
Proof.
  revert builder. induction objects as [| o objects IH]; intros builder; [done |].
  cbn. rewrite kind_test. case_bool_decide as Hk.
  - destruct (yaml_Marshal o) as [data | err] eqn:Hm.
    + intros Hfail. destruct (IH _ Hfail) as (pre & post & o' & err & -> & Hpre & Hr).
      exists (o :: pre), post, o', err. split; [done |].
      split; [constructor; eauto | done].
    + intros [= <-]. exists [], objects, o, err. by repeat split.
  - intros Hfail. destruct (IH _ Hfail) as (pre & post & o' & err & -> & Hpre & Hr).
    exists (o :: pre), post, o', err. split; [done |].
    split; [constructor; done | done].
Qed.

(** X5.  Objects of another kind are never encoded: two encoders that agree
    on the objects of kind [CustomResourceDefinition] of the input give the
    same result. *)
Theorem extractCRDs_encodes_only_CRDs (yaml_Marshal' : Object -> result bytes)
    (objects : list Object) (builder : bytes) :
  Forall (fun o => is_CRD GetKind o -> yaml_Marshal o = yaml_Marshal' o) objects ->
  extractCRDs objects builder
  = main.extractCRDs Object GetKind yaml_Marshal' objects builder.
Proof.
  intros Hagree. revert builder.
  induction Hagree as [| o objects Ho _ IH]; intros builder; [done |].
  cbn. rewrite kind_test. case_bool_decide as Hk; [| apply IH].
  rewrite <- (Ho Hk). destruct (yaml_Marshal o); [apply IH | done].
Qed.

End Filter.

Section Runs.

Variable Object : Type.
Variable GetKind : Object -> string.
Variable ssa_ReadObjects : bytes -> result (list Object).
Variable yaml_Marshal : Object -> result bytes.
Variable Importer_Generate : string -> bytes -> result (gmap string bytes).
Variable colorizeSubject : string -> string.

Variable W : Type.
Variable h : Handler W.

Local Abbreviation runImportCrdCmd :=
  (main.runImportCrdCmd Object GetKind ssa_ReadObjects yaml_Marshal
     Importer_Generate colorizeSubject).
Local Abbreviation writeDefinitions := (main.writeDefinitions colorizeSubject).
Local Abbreviation writeKeys := (main.writeKeys colorizeSubject).
Local Abbreviation generation :=
  (generated GetKind ssa_ReadObjects yaml_Marshal Importer_Generate).
Local Abbreviation run_load :=
  (runImportCrdCmd_load Object GetKind ssa_ReadObjects yaml_Marshal
     Importer_Generate colorizeSubject W h).
Local Abbreviation import_generated :=
  (importCrds_generated Object GetKind ssa_ReadObjects yaml_Marshal
     Importer_Generate colorizeSubject).

(** *** The loader, call by call *)

Lemma loadCrdData_open (cueModDir : string) (flags : importCrdFlags) (w : W)
    (fs1 fs2 : FileInfo) :
  let w1 := after h (os_Stat cueModDir) w in
  let w2 := after h (os_Stat (crdFile flags)) w1 in
  let w3 := after h (os_Open (crdFile flags)) w2 in
  answer h (os_Stat cueModDir) w = Ok fs1 ->
  IsDir fs1 = true ->
  answer h (os_Stat (crdFile flags)) w1 = Ok fs2 ->
  FileMode_IsRegular (Mode fs2) = true ->
  interp h (loadCrdData cueModDir flags) w =
  match answer h (os_Open (crdFile flags)) w2 with
  | Err err =>
      {| ret := Err err; world := w3;
         trace := [entry (os_Stat cueModDir) (Ok fs1);
                   entry (os_Stat (crdFile flags)) (Ok fs2);
                   entry (os_Open (crdFile flags)) (Err err)] |}
  | Ok f =>
      {| ret := answer h (io_ReadAll f) w3;
         world := after h (io_ReadAll f) w3;
         trace := [entry (os_Stat cueModDir) (Ok fs1);
                   entry (os_Stat (crdFile flags)) (Ok fs2);
                   entry (os_Open (crdFile flags)) (Ok f);
                   entry (io_ReadAll f) (answer h (io_ReadAll f) w3)] |}
  end.
Proof.
  intros w1 w2 w3 E1 D1 E2 R2. unfold loadCrdData.
  rewrite interp_call, E1, D1. cbn [negb]. fold w1.
  rewrite interp_call, E2, R2. cbn [negb]. fold w2.
  rewrite interp_call. fold w3.
  destruct (answer h (os_Open (crdFile flags)) w2) as [f | err]; [| done].
  unfold answer, after. cbn. by destruct (h _ (io_ReadAll f) w3).
Qed.

(** X6.  When [os.Open] fails on a source that passed both checks, the run
    returns that error as it is after three calls: nothing is read. *)
Theorem open_failure_is_returned
    (flags : importCrdFlags) (args : list string) (w : W)
    (fs1 fs2 : FileInfo) (err : error) :
  let flags' := setModRoot flags args in
  let cueModDir := path.Join [modRoot flags'; "cue.mod"] in
  let w1 := after h (os_Stat cueModDir) w in
  let w2 := after h (os_Stat (crdFile flags')) w1 in
  answer h (os_Stat cueModDir) w = Ok fs1 ->
  IsDir fs1 = true ->
  answer h (os_Stat (crdFile flags')) w1 = Ok fs2 ->
  FileMode_IsRegular (Mode fs2) = true ->
  answer h (os_Open (crdFile flags')) w2 = Err err ->
  let o := interp h (runImportCrdCmd flags args) w in
  ret o = Some err
  /\ trace o = [entry (os_Stat cueModDir) (Ok fs1);
                entry (os_Stat (crdFile flags')) (Ok fs2);
                entry (os_Open (crdFile flags')) (Err err)].
Proof.
  intros flags' cueModDir w1 w2 E1 D1 E2 R2 E3 o. subst o.
  rewrite run_load. fold flags' cueModDir.
  rewrite (loadCrdData_open _ _ _ _ _ E1 D1 E2 R2). fold w1 w2. rewrite E3.
  done.
Qed.

(** X7.  When [io.ReadAll] fails, the run returns that error as it is after
    four calls, whatever the decoder, the encoder and the generator would
    do. *)
Theorem read_failure_is_returned
    (flags : importCrdFlags) (args : list string) (w : W)
    (fs1 fs2 : FileInfo) (f : File) (err : error) :
  let flags' := setModRoot flags args in
  let cueModDir := path.Join [modRoot flags'; "cue.mod"] in
  let w1 := after h (os_Stat cueModDir) w in
  let w2 := after h (os_Stat (crdFile flags')) w1 in
  let w3 := after h (os_Open (crdFile flags')) w2 in
  answer h (os_Stat cueModDir) w = Ok fs1 ->
  IsDir fs1 = true ->
  answer h (os_Stat (crdFile flags')) w1 = Ok fs2 ->
  FileMode_IsRegular (Mode fs2) = true ->
  answer h (os_Open (crdFile flags')) w2 = Ok f ->
  answer h (io_ReadAll f) w3 = Err err ->
  let o := interp h (runImportCrdCmd flags args) w in
  ret o = Some err
  /\ trace o = [entry (os_Stat cueModDir) (Ok fs1);
                entry (os_Stat (crdFile flags')) (Ok fs2);
                entry (os_Open (crdFile flags')) (Ok f);
                entry (io_ReadAll f) (Err err)].
Proof.
  intros flags' cueModDir w1 w2 w3 E1 D1 E2 R2 E3 E4 o. subst o.
  rewrite run_load. fold flags' cueModDir.
  rewrite (loadCrdData_open _ _ _ _ _ E1 D1 E2 R2). fold w1 w2. rewrite E3.
  fold w3. rewrite E4. done.
Qed.

(** The loader only looks. *)
Lemma loadCrdData_lookups (cueModDir : string) (flags : importCrdFlags) (w : W) :
  Forall (fun en => is_lookup en = true)
    (trace (interp h (loadCrdData cueModDir flags) w)).
Proof.
  unfold loadCrdData. rewrite interp_call.
  destruct (answer h (os_Stat cueModDir) w) as [fs1 | e1];
    [destruct (IsDir fs1) |]; cbn [negb]; try by repeat constructor.
  rewrite interp_call.
  destruct (answer h (os_Stat (crdFile flags)) _) as [fs2 | e2];
    [destruct (FileMode_IsRegular (Mode fs2)) |]; cbn [negb];
    try by repeat constructor.
  rewrite interp_call.
  destruct (answer h (os_Open (crdFile flags)) _) as [f | e3];
    [| by repeat constructor].
  cbn. destruct (h _ (io_ReadAll f) _) as [r w4]. by repeat constructor.
Qed.

(** X8.  A run that does not get a generation map -- the loader fails, or
    decoding, encoding or generation does -- fails having made only stat,
    open and read calls: no directory is created and no file written. *)
Theorem failure_before_writer_mutates_nothing
    (flags : importCrdFlags) (args : list string) (w : W) :
  let flags' := setModRoot flags args in
  let cueModDir := path.Join [modRoot flags'; "cue.mod"] in
  let o1 := interp h (loadCrdData cueModDir flags') w in
  let o := interp h (runImportCrdCmd flags args) w in
  (forall data, ret o1 = Ok data ->
     exists err, generation (crdFile flags') data = Err err) ->
  (exists err, ret o = Some err)
  /\ Forall (fun en => is_lookup en = true) (trace o)
  /\ writes (trace o) = [].
Proof.
  intros flags' cueModDir o1 o Hnomap.
  assert (Hshape : (exists err, ret o = Some err) /\ trace o = trace o1).
  { subst o. rewrite run_load. fold flags' cueModDir o1.
    destruct (ret o1) as [data | err] eqn:Hload; [| eauto].
    destruct (Hnomap data eq_refl) as [err Hgen].
    rewrite import_generated, Hgen. cbn. rewrite app_nil_r. eauto. }
  destruct Hshape as [Hret Htrace]. split; [done |]. rewrite Htrace.
  split; [apply loadCrdData_lookups | apply loadCrdData_writes].
Qed.

(** *** The writer, key by key *)

Lemma writes_app (t1 t2 : list Entry) : writes (t1 ++ t2) = writes t1 ++ writes t2.
Proof. apply omap_app. Qed.

Lemma writes_cons_None (en : Entry) (t : list Entry) :
  entry_write en = None -> writes (en :: t) = writes t.
Proof. intros Hen. unfold writes. cbn. by rewrite Hen. Qed.

Lemma writeKeys_first_failure (cueModDir : string) (crds : gmap string bytes)
    (keys : list string) (w : W) (err : error) :
  ret (interp h (writeKeys cueModDir crds keys) w) = Some err ->
  exists (done rest : list string) (k : string) (t : list Entry),
    keys = done ++ k :: rest
    /\ key_failure colorizeSubject cueModDir crds k err t
    /\ trace (interp h (writeKeys cueModDir crds keys) w)
       = flat_map (key_entries colorizeSubject cueModDir crds) done ++ t.
Proof.
  revert w. induction keys as [| k keys IH]; intros w; [done |].
  rewrite writeKeys_cons. cbv zeta.
  destruct (answer h (os_MkdirAll _ _) _) as [e1 |] eqn:E1.
  { cbn. intros [= ->]. exists [], keys, k. eexists. split; [done |].
    split; [by left | done]. }
  destruct (answer h (os_WriteFile _ _ _) _) as [e2 |] eqn:E2.
  { cbn. intros [= ->]. exists [], keys, k. eexists. split; [done |].
    split; [by right | done]. }
  cbn [ret trace]. intros Hfail.
  destruct (IH _ Hfail) as (done & rest & k' & t & -> & Hk & ->).
  exists (k :: done), rest, k', t. split; [done |]. split; [done |].
  cbn [flat_map]. by rewrite <- app_assoc.
Qed.

(** X9.  A writer that fails has written, in order, the file of every key
    before the one that failed, has stopped at that key -- at its directory
    or at its file -- and has made no call for the keys after it: what was
    written stays. *)
Theorem writer_stops_at_first_failure
    (cueModDir : string) (crds : gmap string bytes) (w : W) (err : error) :
  let keys := sort_Strings (answer h (range_keys crds) w) in
  let o := interp h (writeDefinitions cueModDir crds) w in
  ret o = Some err ->
  exists (done rest : list string) (k : string) (t : list Entry),
    keys = done ++ k :: rest
    /\ key_failure colorizeSubject cueModDir crds k err t
    /\ trace o = entry (range_keys crds) (answer h (range_keys crds) w)
                   :: flat_map (key_entries colorizeSubject cueModDir crds) done ++ t
    /\ writes (trace o)
       = map (fun k => (dstFile cueModDir k, default [] (crds !! k))) done.
Proof.
  intros keys o. subst o. rewrite writeDefinitions_run. cbn [ret trace].
  intros Hfail.
  destruct (writeKeys_first_failure _ _ _ _ _ Hfail)
    as (done & rest & k & t & Hkeys & Hk & Ht).
  exists done, rest, k, t. split; [done |]. split; [done |].
  rewrite Ht. split; [done |].
  rewrite writes_cons_None by done. rewrite writes_app, writes_key_entries.
  destruct Hk as [-> | ->]; cbn; by rewrite app_nil_r.
Qed.

(** X10.  When the generator gives the empty map the run succeeds and makes
    no call after the load but the range over the map: no directory, no
    file, no log line. *)
Theorem empty_map_writes_nothing
    (flags : importCrdFlags) (args : list string) (w : W) (data : bytes) :
  let flags' := setModRoot flags args in
  let cueModDir := path.Join [modRoot flags'; "cue.mod"] in
  let o1 := interp h (loadCrdData cueModDir flags') w in
  let o := interp h (runImportCrdCmd flags args) w in
  ret o1 = Ok data ->
  generation (crdFile flags') data = Ok ∅ ->
  answer h (range_keys ∅) (world o1) ≡ₚ (map_to_list (∅ : gmap string bytes)).*1 ->
  ret o = None
  /\ trace o = trace o1 ++ [entry (range_keys ∅) []]
  /\ writes (trace o) = [].
Proof.
  intros flags' cueModDir o1 o Hload Hgen Hrange. subst o.
  rewrite run_load. fold flags' cueModDir o1. rewrite Hload.
  rewrite import_generated, Hgen, writeDefinitions_run.
  rewrite map_to_list_empty in Hrange. apply Permutation_nil_r in Hrange.
  rewrite Hrange.
  pose proof (loadCrdData_writes _ h cueModDir flags' w) as Hw. fold o1 in Hw.
  remember (trace o1) as t1 eqn:Ht1. cbn. split; [done |]. split; [done |].
  by rewrite writes_app, Hw.
Qed.


(** *** Errors of calls *)

Lemma Forall_removelast {A : Type} (P : A -> Prop) (l : list A) :
  Forall P l -> Forall P (removelast l).
Proof.
  induction 1 as [| x l Hx Hl IH]; [constructor |].
  destruct l; [constructor |]. cbn in *. by constructor.
Qed.

Lemma key_entries_clean (cueModDir : string) (crds : gmap string bytes)
    (keys : list string) :
  Forall (fun en => entry_error en = None)
    (flat_map (key_entries colorizeSubject cueModDir crds) keys).
Proof.
  induction keys as [| k keys IH]; [constructor |].
  cbn. by repeat constructor.
Qed.

Lemma writeKeys_init_clean (cueModDir : string) (crds : gmap string bytes)
    (keys : list string) (w : W) :
  Forall (fun en => entry_error en = None)
    (removelast (trace (interp h (writeKeys cueModDir crds keys) w))).
Proof.
  destruct (ret (interp h (writeKeys cueModDir crds keys) w)) as [err |] eqn:Hret.
  - destruct (writeKeys_failure _ _ _ _ _ _ _ _ Hret) as (t & en & -> & _ & Hall).
    by rewrite removelast_last.
  - rewrite (writeKeys_success _ _ _ _ _ _ _ Hret).
    apply Forall_removelast, key_entries_clean.
Qed.

Lemma loadCrdData_init_clean (cueModDir : string) (flags : importCrdFlags) (w : W) :
  Forall (fun en => entry_error en = None)
    (removelast (trace (interp h (loadCrdData cueModDir flags) w))).
Proof.
  unfold loadCrdData. rewrite interp_call.
  destruct (answer h (os_Stat cueModDir) w) as [fs1 | e1];
    [destruct (IsDir fs1) |]; cbn [negb]; try by repeat constructor.
  rewrite interp_call.
  destruct (answer h (os_Stat (crdFile flags)) _) as [fs2 | e2];
    [destruct (FileMode_IsRegular (Mode fs2)) |]; cbn [negb];
    try by repeat constructor.
  rewrite interp_call.
  destruct (answer h (os_Open (crdFile flags)) _) as [f | e3];
    [| by repeat constructor].
  cbn. destruct (h _ (io_ReadAll f) _) as [r w4]. by repeat constructor.
Qed.

Lemma run_init_clean (flags : importCrdFlags) (args : list string) (w : W) :
  Forall (fun en => entry_error en = None)
    (removelast (trace (interp h (runImportCrdCmd flags args) w))).
Proof.
  rewrite run_load. cbv zeta.
  set (flags' := setModRoot flags args).
  set (cueModDir := path.Join [modRoot flags'; "cue.mod"]).
  destruct (ret (interp h (loadCrdData cueModDir flags') w)) as [data | err] eqn:Hload;
    [| apply loadCrdData_init_clean].
  pose proof (loadCrdData_ok _ h _ _ _ _ Hload) as Hclean.
  rewrite import_generated.
  destruct (generation (crdFile flags') data) as [crds | err].
  - rewrite writeDefinitions_run. cbn [trace].
    rewrite removelast_app by done. apply Forall_app. split; [done |].
    destruct (trace (interp h (writeKeys _ _ _) _)) as [| en t] eqn:Ht;
      [constructor |].
    change (removelast (?a :: en :: t)) with (a :: removelast (en :: t)).
    constructor; [done |]. rewrite <- Ht. apply writeKeys_init_clean.
  - cbn. rewrite app_nil_r. by apply Forall_removelast.
Qed.

Lemma run_ok_clean (flags : importCrdFlags) (args : list string) (w : W) :
  ret (interp h (runImportCrdCmd flags args) w) = None ->
  Forall (fun en => entry_error en = None)
    (trace (interp h (runImportCrdCmd flags args) w)).
Proof.
  rewrite run_load. cbv zeta.
  set (flags' := setModRoot flags args).
  set (cueModDir := path.Join [modRoot flags'; "cue.mod"]).
  destruct (ret (interp h (loadCrdData cueModDir flags') w)) as [data | err] eqn:Hload;
    [| done].
  pose proof (loadCrdData_ok _ h _ _ _ _ Hload) as Hclean.
  rewrite import_generated.
  destruct (generation (crdFile flags') data) as [crds | err]; [| done].
  rewrite writeDefinitions_run. cbn [ret trace]. intros Hok.
  apply Forall_app. split; [done |]. constructor; [done |].
  rewrite (writeKeys_success _ _ _ _ _ _ _ Hok). apply key_entries_clean.
Qed.

(** X11.  No error is swallowed: when a call of the run is answered with an
    error, the run fails, and that call is its last one -- every call before
    it succeeded. *)
Theorem no_error_is_swallowed
    (flags : importCrdFlags) (args : list string) (w : W)
    (en : Entry) (err : error) :
  let o := interp h (runImportCrdCmd flags args) w in
  en ∈ trace o ->
  entry_error en = Some err ->
  (exists failure, ret o = Some failure)
  /\ exists t, trace o = t ++ [en]
               /\ Forall (fun en' => entry_error en' = None) t.
Proof.
  intros o Hin Herr. split.
  - destruct (ret o) as [failure |] eqn:Hret; [eauto |].
    pose proof (run_ok_clean flags args w Hret) as Hclean.
    rewrite Forall_forall in Hclean. specialize (Hclean en Hin). congruence.
  - pose proof (run_init_clean flags args w) as Hinit. fold o in Hinit.
    assert (Hne : trace o <> []) by (intros Hnil; rewrite Hnil in Hin; inversion Hin).
    rewrite (app_removelast_last en Hne) in Hin.
    apply elem_of_app in Hin as [Hin | Hin].
    + rewrite Forall_forall in Hinit. specialize (Hinit en Hin). congruence.
    + apply list_elem_of_singleton in Hin.
      exists (removelast (trace o)). split; [| done].
      pose proof (app_removelast_last en Hne) as Heq.
      rewrite <- Hin in Heq. exact Heq.
Qed.

(** *** The error a run returns *)

Lemma loadCrdData_error_returned (cueModDir : string) (flags : importCrdFlags)
    (w : W) (en : Entry) (err : error) :
  en ∈ trace (interp h (loadCrdData cueModDir flags) w) ->
  entry_error en = Some err ->
  is_stat en = false ->
  ret (interp h (loadCrdData cueModDir flags) w) = Err err.
Proof.
  unfold loadCrdData. rewrite interp_call.
  destruct (answer h (os_Stat cueModDir) w) as [fs1 | e1];
    [destruct (IsDir fs1) |]; cbn [negb];
    try (cbn; intros Hin Herr Hst;
         repeat (apply elem_of_cons in Hin as [-> | Hin]);
         try (cbn in *; congruence); by inversion Hin).
  rewrite interp_call.
  destruct (answer h (os_Stat (crdFile flags)) _) as [fs2 | e2];
    [destruct (FileMode_IsRegular (Mode fs2)) |]; cbn [negb];
    try (cbn; intros Hin Herr Hst;
         repeat (apply elem_of_cons in Hin as [-> | Hin]);
         try (cbn in *; congruence); by inversion Hin).
  rewrite interp_call.
  destruct (answer h (os_Open (crdFile flags)) _) as [f | e3];
    [cbn; destruct (h _ (io_ReadAll f) _) as [[d | e4] w4] |];
    cbn; intros Hin Herr Hst;
    repeat (apply elem_of_cons in Hin as [-> | Hin]);
    try (cbn in *; congruence); by inversion Hin.
Qed.

Lemma writeKeys_error_returned (cueModDir : string) (crds : gmap string bytes)
    (keys : list string) (w : W) (en : Entry) (err : error) :
  en ∈ trace (interp h (writeKeys cueModDir crds keys) w) ->
  entry_error en = Some err ->
  ret (interp h (writeKeys cueModDir crds keys) w) = Some err.
Proof.
  intros Hin Herr.
  destruct (ret (interp h (writeKeys cueModDir crds keys) w)) as [failure |] eqn:Hret.
  - destruct (writeKeys_failure _ _ _ _ _ _ _ _ Hret) as (t & en0 & Ht & Hen0 & Hall).
    rewrite Ht in Hin. apply elem_of_app in Hin as [Hin | Hin].
    + rewrite Forall_forall in Hall. specialize (Hall en Hin). congruence.
    + apply list_elem_of_singleton in Hin as ->. congruence.
  - rewrite (writeKeys_success _ _ _ _ _ _ _ Hret) in Hin.
    pose proof (key_entries_clean cueModDir crds keys) as Hclean.
    rewrite Forall_forall in Hclean. specialize (Hclean en Hin). congruence.
Qed.

Lemma writeKeys_no_stat (cueModDir : string) (crds : gmap string bytes)
    (keys : list string) (w : W) :
  Forall (fun en => is_stat en = false)
    (trace (interp h (writeKeys cueModDir crds keys) w)).
Proof.
  revert w. induction keys as [| k keys IH]; intros w; [constructor |].
  rewrite writeKeys_cons. cbv zeta.
  destruct (answer h (os_MkdirAll _ _) _); [by repeat constructor |].
  destruct (answer h (os_WriteFile _ _ _) _); [by repeat constructor |].
  cbn [trace]. apply Forall_app. split; [by repeat constructor | apply IH].
Qed.

(** A call other than a stat that is answered with an error gives the run
    its result: that error, as it is. *)
Lemma run_error_returned (flags : importCrdFlags) (args : list string) (w : W)
    (en : Entry) (err : error) :
  en ∈ trace (interp h (runImportCrdCmd flags args) w) ->
  entry_error en = Some err ->
  is_stat en = false ->
  ret (interp h (runImportCrdCmd flags args) w) = Some err.
Proof.
  rewrite run_load. cbv zeta.
  set (flags' := setModRoot flags args).
  set (cueModDir := path.Join [modRoot flags'; "cue.mod"]).
  destruct (ret (interp h (loadCrdData cueModDir flags') w)) as [data | failure] eqn:Hload.
  - pose proof (loadCrdData_ok _ h _ _ _ _ Hload) as Hclean.
    rewrite import_generated.
    destruct (generation (crdFile flags') data) as [crds | failure].
    + rewrite writeDefinitions_run. cbn [ret trace]. intros Hin Herr Hst.
      apply elem_of_app in Hin as [Hin | Hin].
      { rewrite Forall_forall in Hclean. specialize (Hclean en Hin). congruence. }
      apply elem_of_cons in Hin as [-> | Hin]; [discriminate Herr |].
      by apply writeKeys_error_returned with en.
    + cbn. rewrite app_nil_r. intros Hin Herr _.
      rewrite Forall_forall in Hclean. specialize (Hclean en Hin). congruence.
  - cbn [ret trace]. intros Hin Herr Hst.
    pose proof (loadCrdData_error_returned _ _ _ _ _ Hin Herr Hst) as Hret.
    congruence.
Qed.

Lemma run_error_last (flags : importCrdFlags) (args : list string) (w : W)
    (en : Entry) (err : error) :
  en ∈ trace (interp h (runImportCrdCmd flags args) w) ->
  entry_error en = Some err ->
  exists t, trace (interp h (runImportCrdCmd flags args) w) = t ++ [en]
            /\ Forall (fun en' => entry_error en' = None) t.
Proof.
  intros Hin Herr.
  pose proof (run_init_clean flags args w) as Hinit.
  set (o := interp h (runImportCrdCmd flags args) w) in *.
  assert (Hne : trace o <> []) by (intros Hnil; rewrite Hnil in Hin; inversion Hin).
  rewrite (app_removelast_last en Hne) in Hin.
  apply elem_of_app in Hin as [Hin | Hin].
  - rewrite Forall_forall in Hinit. specialize (Hinit en Hin). congruence.
  - apply list_elem_of_singleton in Hin.
    exists (removelast (trace o)). split; [| done].
    pose proof (app_removelast_last en Hne) as Heq.
    rewrite <- Hin in Heq. exact Heq.
Qed.

(** C8, as the code has it.  Every stage fails fast: the run returns the
    first error and makes no further call.  The two validations report
    their own fixed errors, whatever the stat answered.  A failure of the
    decoder comes back wrapped as [parsing CRDs failed: <cause>], a failure of
    the encoder wrapped as [marshaling CRD failed: <cause>].  A failure of the
    generator comes back as it is, with no context added, and so does a
    failure of [os.Open], [io.ReadAll], [os.MkdirAll] or [os.WriteFile]: the
    call that failed is the last call of the run and its error is the result
    of the run. *)
Theorem first_error_is_returned
    (flags : importCrdFlags) (args : list string) (w : W) :
  let flags' := setModRoot flags args in
  let cueModDir := path.Join [modRoot flags'; "cue.mod"] in
  let w1 := after h (os_Stat cueModDir) w in
  let o1 := interp h (loadCrdData cueModDir flags') w in
  let o := interp h (runImportCrdCmd flags args) w in
  ((forall fs, answer h (os_Stat cueModDir) w = Ok fs -> IsDir fs = false) ->
   ret o = Some (errorString
                   ("cue.mod not found in the module path " +:+ modRoot flags'))
   /\ trace o = [entry (os_Stat cueModDir) (answer h (os_Stat cueModDir) w)])
  /\ (forall fs1,
        answer h (os_Stat cueModDir) w = Ok fs1 ->
        IsDir fs1 = true ->
        (forall fs, answer h (os_Stat (crdFile flags')) w1 = Ok fs ->
                    FileMode_IsRegular (Mode fs) = false) ->
        ret o = Some (errorString ("path not found: " +:+ crdFile flags'))
        /\ trace o = [entry (os_Stat cueModDir) (Ok fs1);
                      entry (os_Stat (crdFile flags'))
                        (answer h (os_Stat (crdFile flags')) w1)])
  /\ (forall en err,
        en ∈ trace o ->
        entry_error en = Some err ->
        is_stat en = false ->
        ret o = Some err
        /\ exists t, trace o = t ++ [en]
                     /\ Forall (fun en' => entry_error en' = None) t)
  /\ (forall data, ret o1 = Ok data ->
       (forall err, ssa_ReadObjects data = Err err ->
          ret o = Some (wrapError ("parsing CRDs failed: " +:+ Error err) err)
          /\ trace o = trace o1)
       /\ (forall pre post ob err,
             ssa_ReadObjects data = Ok (pre ++ ob :: post) ->
             Forall (fun o' => is_CRD GetKind o' ->
                               exists d, yaml_Marshal o' = Ok d) pre ->
             is_CRD GetKind ob ->
             yaml_Marshal ob = Err err ->
             ret o = Some (wrapError ("marshaling CRD failed: " +:+ Error err) err)
             /\ trace o = trace o1)
       /\ (forall objects buffer err,
             ssa_ReadObjects data = Ok objects ->
             main.extractCRDs Object GetKind yaml_Marshal objects [] = Ok buffer ->
             Importer_Generate (header +:+ crdFile flags') buffer = Err err ->
             ret o = Some err /\ trace o = trace o1)
       /\ (forall crds err,
             generation (crdFile flags') data = Ok crds ->
             ret o = Some err ->
             exists (t : list Entry) (en : Entry),
               trace o = t ++ [en] /\ entry_error en = Some err
               /\ is_stat en = false
               /\ Forall (fun en' => entry_error en' = None) t)).
Proof.
  intros flags' cueModDir w1 o1 o.
  split; [| split; [| split]].
  - intros Hdir.
    apply (runImportCrdCmd_no_module Object GetKind ssa_ReadObjects yaml_Marshal
             Importer_Generate colorizeSubject W h flags args w Hdir).
  - intros fs1 E1 D1 Hreg. subst o. rewrite run_load. fold flags' cueModDir.
    rewrite (loadCrdData_not_regular _ h _ _ _ _ E1 D1 Hreg). done.
  - intros en err Hin Herr Hst. split.
    + by apply run_error_returned with en.
    + by apply run_error_last with err.
  - intros data Hload. subst o. rewrite run_load. fold flags' cueModDir o1.
    rewrite Hload. split; [| split; [| split]].
    + intros err Hread. unfold main.importCrds. rewrite Hread. cbn.
      by rewrite app_nil_r.
    + intros pre post ob err Hread Hpre Hk Herr.
      unfold main.importCrds. rewrite Hread.
      rewrite (extractCRDs_marshal_fails _ _ _ pre post ob [] err Hpre Hk Herr).
      cbn. by rewrite app_nil_r.
    + intros objects buffer err Hread Hfilter Hgen.
      rewrite (importCrds_generate _ _ _ _ _ _ _ _ _ _ _ Hread Hfilter), Hgen.
      cbn. by rewrite app_nil_r.
    + intros crds err Hgen. rewrite import_generated, Hgen.
      rewrite writeDefinitions_run. cbn [ret trace]. intros Hfail.
      destruct (writeKeys_failure _ _ _ _ _ _ _ _ Hfail)
        as (t' & en & Ht' & Hen & Hall).
      exists (trace o1 ++ entry (range_keys crds)
                (answer h (range_keys crds) (world o1)) :: t'), en.
      split; [by rewrite Ht', <- app_assoc |]. split; [done |]. split.
      * pose proof (writeKeys_no_stat cueModDir crds
                      (sort_Strings (answer h (range_keys crds) (world o1)))
                      (after h (range_keys crds) (world o1))) as Hns.
        rewrite Ht', Forall_app, Forall_singleton in Hns. by destruct Hns.
      * apply Forall_app. split; [by eapply loadCrdData_ok |]. by constructor.
Qed.

(** *** Files a run leaves alone *)

Lemma loadCrdData_contents (contents : W -> string -> option bytes)
    (cueModDir : string) (flags : importCrdFlags) (w : W) (q : string) :
  read_only h contents ->
  contents (world (interp h (loadCrdData cueModDir flags) w)) q = contents w q.
Proof.
  intros Hro. unfold loadCrdData. rewrite interp_call.
  pose proof (ro_stat _ _ Hro cueModDir w q) as H1.
  destruct (answer h (os_Stat cueModDir) w) as [fs1 | e1];
    [destruct (IsDir fs1) |]; cbn [negb]; try done.
  rewrite interp_call.
  pose proof (ro_stat _ _ Hro (crdFile flags) (after h (os_Stat cueModDir) w) q) as H2.
  destruct (answer h (os_Stat (crdFile flags)) _) as [fs2 | e2];
    [destruct (FileMode_IsRegular (Mode fs2)) |]; cbn [negb];
    try (cbn; congruence).
  rewrite interp_call.
  pose proof (ro_open _ _ Hro (crdFile flags)
                (after h (os_Stat (crdFile flags)) (after h (os_Stat cueModDir) w)) q) as H3.
  destruct (answer h (os_Open (crdFile flags)) _) as [f | e3];
    [| cbn; congruence].
  pose proof (ro_read _ _ Hro f
                (after h (os_Open (crdFile flags))
                   (after h (os_Stat (crdFile flags)) (after h (os_Stat cueModDir) w))) q) as H4.
  unfold after in *. cbn. destruct (h _ (io_ReadAll f) _) as [r w4]. cbn in *.
  congruence.
Qed.

Lemma layout_lookup_None (cueModDir : string) (crds : gmap string bytes)
    (keys : list string) (q : string) :
  (forall k, k ∈ keys -> q <> dstFile cueModDir k) ->
  layout cueModDir crds keys !! q = None.
Proof.
  induction keys as [| k keys IH]; intros Hq; [done |].
  cbn [layout]. apply lookup_union_None. split.
  - apply IH. intros k' Hk'. apply Hq. by right.
  - apply lookup_singleton_ne. intros Heq. apply (Hq k); [by left | done].
Qed.

(** X12.  A run that succeeds changes no file but the [types_gen.cue] of
    the keys of the generation map: every other path holds afterwards what
    it held before. *)
Theorem successful_run_changes_only_outputs
    (contents : W -> string -> option bytes)
    (flags : importCrdFlags) (args : list string) (w : W) (data : bytes) :
  file_store h contents ->
  read_only h contents ->
  ranges_over_keys h ->
  let flags' := setModRoot flags args in
  let cueModDir := path.Join [modRoot flags'; "cue.mod"] in
  let o := interp h (runImportCrdCmd flags args) w in
  ret (interp h (loadCrdData cueModDir flags') w) = Ok data ->
  ret o = None ->
  exists crds,
    generation (crdFile flags') data = Ok crds
    /\ forall q,
         (forall k, is_Some (crds !! k) -> q <> dstFile cueModDir k) ->
         contents (world o) q = contents w q.
Proof.
  intros Hstore Hro Hrange flags' cueModDir o Hload Hok.
  destruct (run_success _ _ _ _ _ _ _ h flags args w data Hrange Hload Hok)
    as (crds & Hgen & Hw & Hworld & _).
  fold flags' cueModDir in Hgen, Hw, Hworld.
  exists crds. split; [done |]. intros q Hq. subst o. rewrite Hworld.
  rewrite (writeKeys_contents _ _ h contents _ _ _ _ Hstore Hw).
  rewrite layout_lookup_None.
  - rewrite (ro_range _ _ Hro). by apply loadCrdData_contents.
  - intros k Hk. apply Hq.
    rewrite sort_Strings_Permutation in Hk.
    apply list_elem_of_fmap in Hk as [[k' d] [-> Hin]].
    apply elem_of_map_to_list in Hin. by exists d.
Qed.

(** *** From the source to the generator *)

Lemma extractCRDs_ok_documents (objects : list Object) (builder buffer : bytes) :
  main.extractCRDs Object GetKind yaml_Marshal objects builder = Ok buffer ->
  exists docs,
    Forall2 (fun o d => yaml_Marshal o = Ok d) (filter (is_CRD GetKind) objects) docs
    /\ buffer = builder ++ documents docs.
Proof.
  revert builder. induction objects as [| o objects IH]; intros builder.
  - cbn. intros [= <-]. exists []. split; [constructor | by rewrite app_nil_r].
  - cbn [main.extractCRDs]. rewrite kind_test. case_bool_decide as Hk.
    + destruct (yaml_Marshal o) as [data | err] eqn:Hm; [| done].
      intros Hx. destruct (IH _ Hx) as (docs & Hdocs & ->).
      exists (data :: docs). rewrite filter_cons_True by done.
      split; [by constructor |]. unfold documents. cbn. by rewrite <- !app_assoc.
    + intros Hx. destruct (IH _ Hx) as (docs & Hdocs & ->).
      exists docs. by rewrite filter_cons_False.
Qed.

(** X13.  A run that succeeds has decoded the bytes it read, encoded the
    objects of kind [CustomResourceDefinition], and called the generator with
    the header that ends in the source path and with exactly the documents
    of those objects; the files it wrote are the values of the map the
    generator gave. *)
Theorem successful_run_generated_from_documents
    (flags : importCrdFlags) (args : list string) (w : W) (data : bytes) :
  ranges_over_keys h ->
  let flags' := setModRoot flags args in
  let cueModDir := path.Join [modRoot flags'; "cue.mod"] in
  let o := interp h (runImportCrdCmd flags args) w in
  ret (interp h (loadCrdData cueModDir flags') w) = Ok data ->
  ret o = None ->
  exists (objects : list Object) (docs : list bytes) (crds : gmap string bytes),
    ssa_ReadObjects data = Ok objects
    /\ Forall2 (fun o d => yaml_Marshal o = Ok d) (filter (is_CRD GetKind) objects) docs
    /\ Importer_Generate (header +:+ crdFile flags') (documents docs) = Ok crds
    /\ writes (trace o) = planned_writes cueModDir crds.
Proof.
  intros Hrange flags' cueModDir o Hload Hok.
  destruct (run_success _ _ _ _ _ _ _ h flags args w data Hrange Hload Hok)
    as (crds & Hgen & _ & _ & Htrace).
  fold flags' cueModDir in Hgen, Htrace.
  unfold generated in Hgen.
  destruct (ssa_ReadObjects data) as [objects | e1] eqn:Hread; [| done].
  destruct (main.extractCRDs Object GetKind yaml_Marshal objects []) as [buffer | e2] eqn:Hx;
    [| done].
  destruct (extractCRDs_ok_documents _ _ _ Hx) as (docs & Hdocs & ->).
  exists objects, docs, crds. split; [done |]. split; [done |]. split; [done |].
  subst o. rewrite Htrace, writes_app, loadCrdData_writes.
  rewrite writes_cons_None by done. apply writes_key_entries.
Qed.

(** *** File modes *)

Lemma IsDir_not_regular (m : FileMode) :
  FileMode_IsDir m = true -> FileMode_IsRegular m = false.
Proof.
  unfold FileMode_IsDir, FileMode_IsRegular. intros Hdir.
  apply negb_true_iff, N.eqb_neq in Hdir. apply N.eqb_neq. intros Hreg.
  apply Hdir. change ModeDir with (N.land ModeType ModeDir).
  by rewrite N.land_assoc, Hreg.
Qed.

(** X14.  A directory is never taken for the source: when the stat of the
    source path answers a mode with the directory bit, the run fails with
    the path-not-found error without opening the path. *)
Theorem directory_is_not_a_source
    (flags : importCrdFlags) (args : list string) (w : W) (fs1 fs2 : FileInfo) :
  let flags' := setModRoot flags args in
  let cueModDir := path.Join [modRoot flags'; "cue.mod"] in
  let w1 := after h (os_Stat cueModDir) w in
  answer h (os_Stat cueModDir) w = Ok fs1 ->
  IsDir fs1 = true ->
  answer h (os_Stat (crdFile flags')) w1 = Ok fs2 ->
  IsDir fs2 = true ->
  let o := interp h (runImportCrdCmd flags args) w in
  ret o = Some (errorString ("path not found: " +:+ crdFile flags'))
  /\ trace o = [entry (os_Stat cueModDir) (Ok fs1);
                entry (os_Stat (crdFile flags')) (Ok fs2)].
Proof.
  intros flags' cueModDir w1 E1 D1 E2 D2 o. subst o.
  rewrite run_load. fold flags' cueModDir.
  rewrite (loadCrdData_not_regular _ h _ _ _ _ E1 D1).
  - fold w1. by rewrite E2.
  - fold w1. rewrite E2. intros fs [= <-]. by apply IsDir_not_regular.
Qed.

End Runs.

(** *** Paths *)

Lemma Clean_not_empty (s : string) : path.Clean s <> EmptyString.
Proof.
  unfold path.Clean. destruct (list_ascii_of_string s) as [| c p1]; [done |].
  cbv zeta. destruct (if path.is_slash c then _ else _); done.
Qed.

(** X15.  [path.Join] gives the empty string exactly when every element is
    empty; so the marker path, the directory and the file of a key are never
    the empty path, whatever the module root and the key. *)
Theorem joined_paths_are_not_empty :
  (forall elem : list string,
     path.Join elem = EmptyString <-> Forall (fun e => e = EmptyString) elem)
  /\ forall root k : string,
       path.Join [root; "cue.mod"] <> EmptyString
       /\ dstDir (path.Join [root; "cue.mod"]) k <> EmptyString
       /\ dstFile (path.Join [root; "cue.mod"]) k <> EmptyString.
Proof.
  assert (Hjoin : forall elem : list string,
            path.Join elem = EmptyString <-> Forall (fun e => e = EmptyString) elem).
  { intros elem. unfold path.Join. cbv zeta.
    destruct (Nat.eqb_spec (foldr (fun e n => String.length e + n) 0 elem) 0)
      as [H0 | H0].
    - split; [intros _ | done].
      induction elem as [| e elem IH]; [constructor |]. cbn in H0.
      constructor; [destruct e; [done | cbn in H0; lia] | apply IH; lia].
    - split; [intros Hc; by apply Clean_not_empty in Hc |].
      intros Hall. exfalso. apply H0. clear H0.
      induction Hall as [| e elem -> _ IH]; [done |]. cbn. exact IH. }
  split; [exact Hjoin |]. intros root k.
  assert (Hne : forall l1 l2 : list string,
            path.Join (l1 ++ "types_gen.cue" :: l2) <> EmptyString
            /\ path.Join (l1 ++ "cue.mod" :: l2) <> EmptyString
            /\ path.Join (l1 ++ "gen" :: l2) <> EmptyString).
  { intros l1 l2. repeat split; intros Hc; apply Hjoin in Hc;
      apply Forall_app in Hc as [_ Hc]; apply Forall_cons in Hc as [Hc _];
      discriminate Hc. }
  split; [apply (Hne [root] []) |].
  split; [apply (Hne [_] [k]) | apply (Hne [_] [])].
Qed.

(** *** The further properties on the file system in memory *)

Lemma memfs_read_only : read_only memfs.handler memfs.contents.
Proof.
  split; done.
Qed.

Lemma extractCRDs_failure_cause_witness :
  extractCRDs stub.Object stub.GetKind stub.yaml_Marshal
    [("CustomResourceDefinition", example.src "a"); ("ConfigMap", []);
     ("CustomResourceDefinition", []); ("CustomResourceDefinition", example.src "b")] []
  = Err (wrapError "marshaling CRD failed: empty body" (errorString "empty body"))
  /\ exists (pre post : list stub.Object) (o : stub.Object) (err : error),
       [("CustomResourceDefinition", example.src "a"); ("ConfigMap", []);
        ("CustomResourceDefinition", []); ("CustomResourceDefinition", example.src "b")]
       = pre ++ o :: post
       /\ Forall (fun o' => is_CRD stub.GetKind o' ->
                            exists d, stub.yaml_Marshal o' = Ok d) pre
       /\ is_CRD stub.GetKind o
       /\ stub.yaml_Marshal o = Err err
       /\ wrapError "marshaling CRD failed: empty body" (errorString "empty body")
          = wrapError ("marshaling CRD failed: " +:+ Error err) err.
Proof.
  split; [reflexivity |].
  apply (extractCRDs_failure_cause stub.Object stub.GetKind stub.yaml_Marshal _ []).
  reflexivity.
Defined.

(** An encoder that refuses everything but CRDs gives the same buffer. *)
Lemma extractCRDs_encodes_only_CRDs_witness :
  Forall (fun o => is_CRD stub.GetKind o ->
            stub.yaml_Marshal o
            = (fun o' => if String.eqb o'.1 "CustomResourceDefinition"
                         then stub.yaml_Marshal o' else Err (errorString "refused")) o)
    [("CustomResourceDefinition", example.src "a"); ("ConfigMap", example.src "z")]
  /\ extractCRDs stub.Object stub.GetKind stub.yaml_Marshal
       [("CustomResourceDefinition", example.src "a"); ("ConfigMap", example.src "z")] []
     = extractCRDs stub.Object stub.GetKind
         (fun o' => if String.eqb o'.1 "CustomResourceDefinition"
                    then stub.yaml_Marshal o' else Err (errorString "refused"))
         [("CustomResourceDefinition", example.src "a"); ("ConfigMap", example.src "z")] [].
Proof.
  assert (H : Forall (fun o => is_CRD stub.GetKind o ->
            stub.yaml_Marshal o
            = (fun o' => if String.eqb o'.1 "CustomResourceDefinition"
                         then stub.yaml_Marshal o' else Err (errorString "refused")) o)
    [("CustomResourceDefinition", example.src "a"); ("ConfigMap", example.src "z")]).
  { constructor; [intros _; reflexivity |].
    constructor; [intros Hk; discriminate Hk | constructor]. }
  split; [exact H |].
  exact (extractCRDs_encodes_only_CRDs stub.Object stub.GetKind stub.yaml_Marshal
           _ _ [] H).
Defined.

Lemma open_failure_is_returned_witness :
  ret (faulty.run faulty.OpenDenied ["m"] (example.module_with example.crds_yaml))
  = Some (faulty.EACCES "open" "crds.yaml")
  /\ trace (faulty.run faulty.OpenDenied ["m"] (example.module_with example.crds_yaml))
     = [entry (os_Stat "m/cue.mod") (Ok {| Mode := N.lor ModeDir 493 |});
        entry (os_Stat "crds.yaml") (Ok {| Mode := 420%N |});
        entry (os_Open "crds.yaml") (Err (faulty.EACCES "open" "crds.yaml"))].
Proof.
  exact (open_failure_is_returned stub.Object stub.GetKind stub.ssa_ReadObjects
           stub.yaml_Marshal stub.Importer_Generate stub.colorizeSubject
           _ (faulty.handler faulty.OpenDenied) example.flags ["m"]
           (example.module_with example.crds_yaml)
           {| Mode := N.lor ModeDir 493 |} {| Mode := 420%N |}
           (faulty.EACCES "open" "crds.yaml")
           eq_refl eq_refl eq_refl eq_refl eq_refl).
Defined.

Lemma read_failure_is_returned_witness :
  ret (faulty.run faulty.ReadBroken ["m"] (example.module_with example.crds_yaml))
  = Some (faulty.EIO "read" "crds.yaml")
  /\ trace (faulty.run faulty.ReadBroken ["m"] (example.module_with example.crds_yaml))
     = [entry (os_Stat "m/cue.mod") (Ok {| Mode := N.lor ModeDir 493 |});
        entry (os_Stat "crds.yaml") (Ok {| Mode := 420%N |});
        entry (os_Open "crds.yaml") (Ok {| fd := 3; name := "crds.yaml" |});
        entry (io_ReadAll {| fd := 3; name := "crds.yaml" |})
          (Err (faulty.EIO "read" "crds.yaml"))].
Proof.
  exact (read_failure_is_returned stub.Object stub.GetKind stub.ssa_ReadObjects
           stub.yaml_Marshal stub.Importer_Generate stub.colorizeSubject
           _ (faulty.handler faulty.ReadBroken) example.flags ["m"]
           (example.module_with example.crds_yaml)
           {| Mode := N.lor ModeDir 493 |} {| Mode := 420%N |}
           {| fd := 3; name := "crds.yaml" |}
           (faulty.EIO "read" "crds.yaml")
           eq_refl eq_refl eq_refl eq_refl eq_refl eq_refl).
Defined.

Lemma failure_before_writer_mutates_nothing_witness :
  (forall data,
     ret (example.load (example.module_with example.broken_yaml)) = Ok data ->
     exists err, example.generated data = Err err)
  /\ (exists err,
        ret (example.run ["m"] (example.module_with example.broken_yaml)) = Some err)
  /\ Forall (fun en => is_lookup en = true)
       (trace (example.run ["m"] (example.module_with example.broken_yaml)))
  /\ writes (trace (example.run ["m"] (example.module_with example.broken_yaml))) = [].
Proof.
  assert (H : forall data,
     ret (example.load (example.module_with example.broken_yaml)) = Ok data ->
     exists err, example.generated data = Err err).
  { intros data Hd. vm_compute in Hd. injection Hd as <-.
    eexists. vm_compute. reflexivity. }
  split; [exact H |].
  exact (failure_before_writer_mutates_nothing stub.Object stub.GetKind
           stub.ssa_ReadObjects stub.yaml_Marshal stub.Importer_Generate
           stub.colorizeSubject _ memfs.handler example.flags ["m"]
           (example.module_with example.broken_yaml) H).
Defined.

(** The directory of key [b] cannot be made: the file of key [a] is written
    and stays, nothing is done for [b] beyond the attempt. *)
Lemma writer_stops_at_first_failure_witness :
  ret (interp memfs.handler
         (writeDefinitions stub.colorizeSubject "m/cue.mod" example.two_keys)
         example.blocked)
  = Some (memfs.ENOTDIR "mkdir" "m/cue.mod/gen/b")
  /\ exists (done rest : list string) (k : string) (t : list Entry),
       sort_Strings (answer memfs.handler (range_keys example.two_keys) example.blocked)
       = done ++ k :: rest
       /\ key_failure stub.colorizeSubject "m/cue.mod" example.two_keys k
            (memfs.ENOTDIR "mkdir" "m/cue.mod/gen/b") t
       /\ trace (interp memfs.handler
                   (writeDefinitions stub.colorizeSubject "m/cue.mod" example.two_keys)
                   example.blocked)
          = entry (range_keys example.two_keys)
              (answer memfs.handler (range_keys example.two_keys) example.blocked)
              :: flat_map (key_entries stub.colorizeSubject "m/cue.mod" example.two_keys) done
                 ++ t
       /\ writes (trace (interp memfs.handler
                           (writeDefinitions stub.colorizeSubject "m/cue.mod"
                              example.two_keys) example.blocked))
          = map (fun k => (dstFile "m/cue.mod" k, default [] (example.two_keys !! k))) done.
Proof.
  assert (H : ret (interp memfs.handler
         (writeDefinitions stub.colorizeSubject "m/cue.mod" example.two_keys)
         example.blocked)
    = Some (memfs.ENOTDIR "mkdir" "m/cue.mod/gen/b")) by (vm_compute; reflexivity).
  split; [exact H |].
  exact (writer_stops_at_first_failure stub.colorizeSubject _ memfs.handler
           "m/cue.mod" example.two_keys example.blocked _ H).
Defined.

Lemma empty_map_writes_nothing_witness :
  ret (example.load (example.module_with example.rbac_yaml)) = Ok example.rbac_yaml
  /\ example.generated example.rbac_yaml = Ok ∅
  /\ ret (example.run ["m"] (example.module_with example.rbac_yaml)) = None
  /\ trace (example.run ["m"] (example.module_with example.rbac_yaml))
     = trace (example.load (example.module_with example.rbac_yaml))
         ++ [entry (range_keys ∅) []]
  /\ writes (trace (example.run ["m"] (example.module_with example.rbac_yaml))) = [].
Proof.
  assert (Hload : ret (example.load (example.module_with example.rbac_yaml))
                  = Ok example.rbac_yaml) by (vm_compute; reflexivity).
  assert (Hgen : example.generated example.rbac_yaml = Ok ∅)
    by (vm_compute; reflexivity).
  split; [exact Hload |]. split; [exact Hgen |].
  exact (empty_map_writes_nothing stub.Object stub.GetKind stub.ssa_ReadObjects
           stub.yaml_Marshal stub.Importer_Generate stub.colorizeSubject
           _ memfs.handler example.flags ["m"]
           (example.module_with example.rbac_yaml) example.rbac_yaml
           Hload Hgen (memfs_ranges_over_keys ∅ _)).
Defined.

Lemma no_error_is_swallowed_witness :
  entry (os_MkdirAll "m/cue.mod/gen/b" ModePerm)
    (Some (memfs.ENOTDIR "mkdir" "m/cue.mod/gen/b"))
    ∈ trace (example.run ["m"] example.blocked)
  /\ (exists failure, ret (example.run ["m"] example.blocked) = Some failure)
  /\ exists t,
       trace (example.run ["m"] example.blocked)
       = t ++ [entry (os_MkdirAll "m/cue.mod/gen/b" ModePerm)
                 (Some (memfs.ENOTDIR "mkdir" "m/cue.mod/gen/b"))]
       /\ Forall (fun en' => entry_error en' = None) t.
Proof.
  assert (H : entry (os_MkdirAll "m/cue.mod/gen/b" ModePerm)
                (Some (memfs.ENOTDIR "mkdir" "m/cue.mod/gen/b"))
              ∈ trace (example.run ["m"] example.blocked)).
  { vm_compute. do 9 apply list_elem_of_further. apply list_elem_of_here. }
  split; [exact H |].
  exact (no_error_is_swallowed stub.Object stub.GetKind stub.ssa_ReadObjects
           stub.yaml_Marshal stub.Importer_Generate stub.colorizeSubject
           _ memfs.handler example.flags ["m"] example.blocked _
           (memfs.ENOTDIR "mkdir" "m/cue.mod/gen/b") H eq_refl).
Defined.

(** The source and the stale file of another module are as they were. *)
Lemma successful_run_changes_only_outputs_witness :
  ret (example.load example.stale) = Ok example.crds_yaml
  /\ ret (example.run ["m"] example.stale) = None
  /\ exists crds,
       example.generated example.crds_yaml = Ok crds
       /\ forall q,
            (forall k, is_Some (crds !! k) -> q <> dstFile "m/cue.mod" k) ->
            memfs.contents (world (example.run ["m"] example.stale)) q
            = memfs.contents example.stale q.
Proof.
  assert (Hload : ret (example.load example.stale) = Ok example.crds_yaml)
    by (vm_compute; reflexivity).
  assert (Hok : ret (example.run ["m"] example.stale) = None)
    by (vm_compute; reflexivity).
  split; [exact Hload |]. split; [exact Hok |].
  exact (successful_run_changes_only_outputs stub.Object stub.GetKind
           stub.ssa_ReadObjects stub.yaml_Marshal stub.Importer_Generate
           stub.colorizeSubject _ memfs.handler memfs.contents example.flags ["m"]
           example.stale example.crds_yaml
           memfs_file_store memfs_read_only memfs_ranges_over_keys Hload Hok).
Defined.

Lemma successful_run_generated_from_documents_witness :
  ret (example.load example.stale) = Ok example.crds_yaml
  /\ ret (example.run ["m"] example.stale) = None
  /\ exists (objects : list stub.Object) (docs : list bytes) (crds : gmap string bytes),
       stub.ssa_ReadObjects example.crds_yaml = Ok objects
       /\ Forall2 (fun o d => stub.yaml_Marshal o = Ok d)
            (filter (is_CRD stub.GetKind) objects) docs
       /\ stub.Importer_Generate (header +:+ "crds.yaml") (documents docs) = Ok crds
       /\ writes (trace (example.run ["m"] example.stale))
          = planned_writes "m/cue.mod" crds.
Proof.
  assert (Hload : ret (example.load example.stale) = Ok example.crds_yaml)
    by (vm_compute; reflexivity).
  assert (Hok : ret (example.run ["m"] example.stale) = None)
    by (vm_compute; reflexivity).
  split; [exact Hload |]. split; [exact Hok |].
  exact (successful_run_generated_from_documents stub.Object stub.GetKind
           stub.ssa_ReadObjects stub.yaml_Marshal stub.Importer_Generate
           stub.colorizeSubject _ memfs.handler example.flags ["m"]
           example.stale example.crds_yaml memfs_ranges_over_keys Hload Hok).
Defined.

Lemma directory_is_not_a_source_witness :
  IsDir {| Mode := N.lor ModeDir 493 |} = true
  /\ ret (example.run ["m"] example.source_is_dir)
     = Some (errorString "path not found: crds.yaml")
  /\ trace (example.run ["m"] example.source_is_dir)
     = [entry (os_Stat "m/cue.mod") (Ok {| Mode := N.lor ModeDir 493 |});
        entry (os_Stat "crds.yaml") (Ok {| Mode := N.lor ModeDir 493 |})].
Proof.
  split; [reflexivity |].
  exact (directory_is_not_a_source stub.Object stub.GetKind stub.ssa_ReadObjects
           stub.yaml_Marshal stub.Importer_Generate stub.colorizeSubject
           _ memfs.handler example.flags ["m"] example.source_is_dir
           {| Mode := N.lor ModeDir 493 |} {| Mode := N.lor ModeDir 493 |}
           eq_refl eq_refl eq_refl eq_refl).
Defined.

(** X16.  A path made of ordinary elements is left as it is by [path.Clean],
    and [path.Join] of such a path with a relative one is the path of their
    elements, one after the other. *)
Theorem plain_paths_join (rooted : bool) (es1 es2 : list string) :
  Forall plain_elem es1 -> Forall plain_elem es2 -> es1 <> [] -> es2 <> [] ->
  path.Clean (path_of rooted es1) = path_of rooted es1
  /\ path.Join [path_of rooted es1; path_of false es2] = path_of rooted (es1 ++ es2)
  /\ path.Clean (path.Join [path_of rooted es1; path_of false es2])
     = path.Join [path_of rooted es1; path_of false es2].
Proof.
  intros H1 H2 Hn1 Hn2.
  split; [by apply Clean_path_of |].
  rewrite Join_path_of by done. split; [done |].
  apply Clean_path_of; [by apply Forall_app | by destruct es1].
Qed.

Lemma plain_paths_join_witness :
  path.Clean "/srv/redis" = "/srv/redis"
  /\ path.Join ["/srv/redis"; "cue.mod/gen"] = "/srv/redis/cue.mod/gen"
  /\ path.Clean (path.Join ["/srv/redis"; "cue.mod/gen"])
     = path.Join ["/srv/redis"; "cue.mod/gen"].
Proof.
  apply (plain_paths_join true ["srv"; "redis"] ["cue.mod"; "gen"]).
  - repeat (constructor; [by apply plain_elemb_correct |]). constructor.
  - repeat (constructor; [by apply plain_elemb_correct |]). constructor.
  - discriminate.
  - discriminate.
Defined.

(** One failure per stage: no module, a directory for a source, an open
    that is refused, a read that breaks off, a document without a kind, a
    CRD that cannot be encoded, a schema the generator refuses, a file in
    the way of a directory. *)
Lemma first_error_is_returned_witness :
  (ret (example.run ["m"] example.no_module)
     = Some (errorString "cue.mod not found in the module path m")
   /\ trace (example.run ["m"] example.no_module)
      = [entry (os_Stat "m/cue.mod") (Err (memfs.ENOENT "stat" "m/cue.mod"))])
  /\ (ret (example.run ["m"] example.source_is_dir)
        = Some (errorString "path not found: crds.yaml")
      /\ trace (example.run ["m"] example.source_is_dir)
         = [entry (os_Stat "m/cue.mod") (Ok {| Mode := N.lor ModeDir 493 |});
            entry (os_Stat "crds.yaml") (Ok {| Mode := N.lor ModeDir 493 |})])
  /\ (ret (faulty.run faulty.OpenDenied ["m"] (example.module_with example.crds_yaml))
        = Some (faulty.EACCES "open" "crds.yaml")
      /\ exists t,
           trace (faulty.run faulty.OpenDenied ["m"]
                    (example.module_with example.crds_yaml))
           = t ++ [entry (os_Open "crds.yaml") (Err (faulty.EACCES "open" "crds.yaml"))]
           /\ Forall (fun en' => entry_error en' = None) t)
  /\ (ret (faulty.run faulty.ReadBroken ["m"] (example.module_with example.crds_yaml))
        = Some (faulty.EIO "read" "crds.yaml")
      /\ exists t,
           trace (faulty.run faulty.ReadBroken ["m"]
                    (example.module_with example.crds_yaml))
           = t ++ [entry (io_ReadAll {| fd := 3; name := "crds.yaml" |})
                     (Err (faulty.EIO "read" "crds.yaml"))]
           /\ Forall (fun en' => entry_error en' = None) t)
  /\ (ret (example.run ["m"] example.blocked)
        = Some (memfs.ENOTDIR "mkdir" "m/cue.mod/gen/b")
      /\ exists t,
           trace (example.run ["m"] example.blocked)
           = t ++ [entry (os_MkdirAll "m/cue.mod/gen/b" ModePerm)
                     (Some (memfs.ENOTDIR "mkdir" "m/cue.mod/gen/b"))]
           /\ Forall (fun en' => entry_error en' = None) t)
  /\ (ret (example.run ["m"] (example.module_with example.broken_yaml))
        = Some (wrapError "parsing CRDs failed: missing kind" (errorString "missing kind"))
      /\ trace (example.run ["m"] (example.module_with example.broken_yaml))
         = trace (example.load (example.module_with example.broken_yaml)))
  /\ (ret (example.run ["m"] (example.module_with example.hollow_yaml))
        = Some (wrapError "marshaling CRD failed: empty body" (errorString "empty body"))
      /\ trace (example.run ["m"] (example.module_with example.hollow_yaml))
         = trace (example.load (example.module_with example.hollow_yaml)))
  /\ (ret (example.run ["m"] (example.module_with example.refused_yaml))
        = Some (errorString "unsupported schema")
      /\ trace (example.run ["m"] (example.module_with example.refused_yaml))
         = trace (example.load (example.module_with example.refused_yaml)))
  /\ (exists (t : list Entry) (en : Entry),
        trace (example.run ["m"] example.blocked) = t ++ [en]
        /\ entry_error en = Some (memfs.ENOTDIR "mkdir" "m/cue.mod/gen/b")
        /\ is_stat en = false
        /\ Forall (fun en' => entry_error en' = None) t).
Proof.
  pose (thm := first_error_is_returned stub.Object stub.GetKind
                 stub.ssa_ReadObjects stub.yaml_Marshal stub.Importer_Generate
                 stub.colorizeSubject _ memfs.handler example.flags ["m"]).
  pose (thm' := fun f =>
          first_error_is_returned stub.Object stub.GetKind
            stub.ssa_ReadObjects stub.yaml_Marshal stub.Importer_Generate
            stub.colorizeSubject _ (faulty.handler f) example.flags ["m"]
            (example.module_with example.crds_yaml)).
  repeat apply conj.
  - destruct (thm example.no_module) as (Hmodule & _).
    apply Hmodule. intros fs Hfs. vm_compute in Hfs. discriminate Hfs.
  - destruct (thm example.no_module) as (Hmodule & _).
    apply Hmodule. intros fs Hfs. vm_compute in Hfs. discriminate Hfs.
  - destruct (thm example.source_is_dir) as (_ & Hsource & _).
    apply (Hsource {| Mode := N.lor ModeDir 493 |}); [reflexivity | reflexivity |].
    intros fs Hfs. vm_compute in Hfs. injection Hfs as <-. reflexivity.
  - destruct (thm example.source_is_dir) as (_ & Hsource & _).
    apply (Hsource {| Mode := N.lor ModeDir 493 |}); [reflexivity | reflexivity |].
    intros fs Hfs. vm_compute in Hfs. injection Hfs as <-. reflexivity.
  - destruct (thm' faulty.OpenDenied) as (_ & _ & Hcall & _).
    apply (Hcall (entry (os_Open "crds.yaml") (Err (faulty.EACCES "open" "crds.yaml"))));
      [| reflexivity | reflexivity].
    vm_compute. do 2 apply list_elem_of_further. apply list_elem_of_here.
  - destruct (thm' faulty.OpenDenied) as (_ & _ & Hcall & _).
    apply (Hcall (entry (os_Open "crds.yaml") (Err (faulty.EACCES "open" "crds.yaml")))
             (faulty.EACCES "open" "crds.yaml"));
      [| reflexivity | reflexivity].
    vm_compute. do 2 apply list_elem_of_further. apply list_elem_of_here.
  - destruct (thm' faulty.ReadBroken) as (_ & _ & Hcall & _).
    apply (Hcall (entry (io_ReadAll {| fd := 3; name := "crds.yaml" |})
                    (Err (faulty.EIO "read" "crds.yaml"))));
      [| reflexivity | reflexivity].
    vm_compute. do 3 apply list_elem_of_further. apply list_elem_of_here.
  - destruct (thm' faulty.ReadBroken) as (_ & _ & Hcall & _).
    apply (Hcall (entry (io_ReadAll {| fd := 3; name := "crds.yaml" |})
                    (Err (faulty.EIO "read" "crds.yaml")))
             (faulty.EIO "read" "crds.yaml"));
      [| reflexivity | reflexivity].
    vm_compute. do 3 apply list_elem_of_further. apply list_elem_of_here.
  - destruct (thm example.blocked) as (_ & _ & Hcall & _).
    apply (Hcall (entry (os_MkdirAll "m/cue.mod/gen/b" ModePerm)
                    (Some (memfs.ENOTDIR "mkdir" "m/cue.mod/gen/b"))));
      [| reflexivity | reflexivity].
    vm_compute. do 9 apply list_elem_of_further. apply list_elem_of_here.
  - destruct (thm example.blocked) as (_ & _ & Hcall & _).
    apply (Hcall (entry (os_MkdirAll "m/cue.mod/gen/b" ModePerm)
                    (Some (memfs.ENOTDIR "mkdir" "m/cue.mod/gen/b")))
             (memfs.ENOTDIR "mkdir" "m/cue.mod/gen/b"));
      [| reflexivity | reflexivity].
    vm_compute. do 9 apply list_elem_of_further. apply list_elem_of_here.
  - destruct (thm (example.module_with example.broken_yaml)) as (_ & _ & _ & Hrest).
    destruct (Hrest example.broken_yaml) as (Hdecode & _);
      [vm_compute; reflexivity |].
    apply (Hdecode (errorString "missing kind")). reflexivity.
  - destruct (thm (example.module_with example.broken_yaml)) as (_ & _ & _ & Hrest).
    destruct (Hrest example.broken_yaml) as (Hdecode & _);
      [vm_compute; reflexivity |].
    apply (Hdecode (errorString "missing kind")). reflexivity.
  - destruct (thm (example.module_with example.hollow_yaml)) as (_ & _ & _ & Hrest).
    destruct (Hrest example.hollow_yaml) as (_ & Hencode & _);
      [vm_compute; reflexivity |].
    apply (Hencode [("CustomResourceDefinition", example.src "a")]
             [("CustomResourceDefinition", example.src "b")]
             ("CustomResourceDefinition", []) (errorString "empty body"));
      [reflexivity | | reflexivity | reflexivity].
    constructor; [| constructor]. intros _. eexists. reflexivity.
  - destruct (thm (example.module_with example.hollow_yaml)) as (_ & _ & _ & Hrest).
    destruct (Hrest example.hollow_yaml) as (_ & Hencode & _);
      [vm_compute; reflexivity |].
    apply (Hencode [("CustomResourceDefinition", example.src "a")]
             [("CustomResourceDefinition", example.src "b")]
             ("CustomResourceDefinition", []) (errorString "empty body"));
      [reflexivity | | reflexivity | reflexivity].
    constructor; [| constructor]. intros _. eexists. reflexivity.
  - destruct (thm (example.module_with example.refused_yaml)) as (_ & _ & _ & Hrest).
    destruct (Hrest example.refused_yaml) as (_ & _ & Hgenerate & _);
      [vm_compute; reflexivity |].
    apply (Hgenerate [("CustomResourceDefinition", example.src "a!")]
             (documents [example.src "a!"]) (errorString "unsupported schema"));
      reflexivity.
  - destruct (thm (example.module_with example.refused_yaml)) as (_ & _ & _ & Hrest).
    destruct (Hrest example.refused_yaml) as (_ & _ & Hgenerate & _);
      [vm_compute; reflexivity |].
    apply (Hgenerate [("CustomResourceDefinition", example.src "a!")]
             (documents [example.src "a!"]) (errorString "unsupported schema"));
      reflexivity.
  - destruct (thm example.blocked) as (_ & _ & _ & Hrest).
    destruct (Hrest example.crds_yaml) as (_ & _ & _ & Hwrite);
      [vm_compute; reflexivity |].
    apply (Hwrite (default ∅ (match example.generated example.crds_yaml with
                              | Ok crds => Some crds
                              | Err _ => None
                              end))).
    + vm_compute. reflexivity.
    + vm_compute. reflexivity.
Defined.
